(** * libhwsunxi: the SUNXI PWM register interface (pwm.c)

    A shallow embedding of [pwm.c].  The C integer types are modelled as [Z]
    with their wrap-around written out, the memory-mapped register block as a
    record, and every C function as a computation in a small state monad
    whose failure stands for behaviour the C standard leaves undefined
    (over-wide shifts, out-of-bounds indexing, division by zero, reading an
    unset local).  Every access to the register block is appended to a bus
    log, so that "no register is read or written" is a statement about the
    state. *)

From Stdlib Require Import ZArith List Lia Bool.
Import ListNotations.

Local Open Scope Z_scope.

(** ** C integer types *)

(** Conversion to [unsigned int] (32 bits). *)
Definition to_uint (z : Z) : Z := z mod 2 ^ 32.

(** Conversion to [__u64]. *)
Definition to_u64 (z : Z) : Z := z mod 2 ^ 64.

Definition INT_MAX : Z := 2 ^ 31 - 1.

(** [a << n] at type [int]: defined only for a non-negative [a], a count
    below the width, and a representable result. *)
Definition shl_int (a n : Z) : option Z :=
  if (0 <=? a) && (0 <=? n) && (n <? 32) && (Z.shiftl a n <=? INT_MAX)
  then Some (Z.shiftl a n)
  else None.

(** [a << n] at type [unsigned int]: defined for a count below the width,
    the result is reduced modulo [2^32]. *)
Definition shl_uint (a n : Z) : option Z :=
  if (0 <=? n) && (n <? 32) then Some (to_uint (Z.shiftl a n)) else None.

(** [a / b] at type [__u64]. *)
Definition div_u64 (a b : Z) : option Z :=
  if b =? 0 then None else Some (a / b).

(** ** errno values (Linux [errno.h]) *)

Definition EPERM : Z := 1.
Definition EINVAL : Z := 22.

(** ** Macros used to configure PWM *)

(** [15 * ch] with [ch] an [unsigned int]. *)
Definition ch_shift (ch : Z) : Z := to_uint (15 * ch).

(** [#define SUNXI_PWM_EN(ch) ((1 << 4) << (15 * ch))] *)
Definition SUNXI_PWM_EN (ch : Z) : option Z :=
  shl_int (Z.shiftl 1 4) (ch_shift ch).

(** [#define SUNXI_PWM_ACT_STATE(ch) ((1 << 5) << (15 * ch))] *)
Definition SUNXI_PWM_ACT_STATE (ch : Z) : option Z :=
  shl_int (Z.shiftl 1 5) (ch_shift ch).

(** [#define SUNXI_PWM_CLK_GATING(ch) ((1 << 6) << (15 * ch))] *)
Definition SUNXI_PWM_CLK_GATING (ch : Z) : option Z :=
  shl_int (Z.shiftl 1 6) (ch_shift ch).

(** [#define SUNXI_PWM_PRESCALAR(ch, prescaler) (prescaler << (15 * ch))],
    at the [int] literal [0x0F]. *)
Definition SUNXI_PWM_PRESCALAR_int (ch prescaler : Z) : option Z :=
  shl_int prescaler (ch_shift ch).

(** The same macro at the [unsigned int] variable [prescaler]. *)
Definition SUNXI_PWM_PRESCALAR_uint (ch prescaler : Z) : option Z :=
  shl_uint prescaler (ch_shift ch).

(** ** SUNXI PWM registers and the process state *)

(** [struct sunxi_pwm_reg { unsigned int ctrl; unsigned int ch_period[2]; }] *)
Record sunxi_pwm_reg : Type := mk_reg {
  ctrl : Z;
  ch_period_0 : Z;
  ch_period_1 : Z
}.

(** One access to the register block. *)
Inductive access : Type :=
| CtrlRead
| CtrlWrite (v : Z)
| PeriodWrite (ch : Z) (v : Z).

(** The global [sunxi_pwm_base_address], the register block behind it, and
    the accesses made so far (latest first). *)
Record pwm_state : Type := mk_state {
  sunxi_pwm_base_address : Z;
  reg : sunxi_pwm_reg;
  bus : list access
}.

(** [ch_period[ch]], for an index inside the array. *)
Definition ch_period (r : sunxi_pwm_reg) (ch : Z) : option Z :=
  if ch =? 0 then Some (ch_period_0 r)
  else if ch =? 1 then Some (ch_period_1 r)
  else None.

Definition initialized (s : pwm_state) : Prop := sunxi_pwm_base_address s <> 0.

Definition word32 (z : Z) : Prop := 0 <= z < 2 ^ 32.
Definition word64 (z : Z) : Prop := 0 <= z < 2 ^ 64.

(** The three registers hold 32-bit words. *)
Definition valid_regs (s : pwm_state) : Prop :=
  word32 (ctrl (reg s)) /\ word32 (ch_period_0 (reg s)) /\ word32 (ch_period_1 (reg s)).

(** ** The monad of C computations over the process state *)

Definition M (A : Type) : Type := pwm_state -> option (A * pwm_state).

Definition ret {A} (a : A) : M A := fun s => Some (a, s).

Definition bind {A B} (m : M A) (k : A -> M B) : M B :=
  fun s => match m s with
           | Some (a, s') => k a s'
           | None => None
           end.

(** Undefined behaviour. *)
Definition undefined {A} : M A := fun _ => None.

(** A partial C operation inside a computation. *)
Definition defined {A} (o : option A) : M A :=
  match o with
  | Some a => ret a
  | None => undefined
  end.

Declare Scope pwm_scope.
Delimit Scope pwm_scope with pwm.
Notation "x <- m ;; k" := (bind m (fun x => k))
  (at level 61, m at next level, right associativity) : pwm_scope.
Notation "m ;; k" := (bind m (fun _ => k))
  (at level 61, right associativity) : pwm_scope.
Local Open Scope pwm_scope.

(** Read of [reg->ctrl]. *)
Definition load_ctrl : M Z :=
  fun s => Some (ctrl (reg s),
                 mk_state (sunxi_pwm_base_address s) (reg s) (CtrlRead :: bus s)).

(** Write of [reg->ctrl]. *)
Definition store_ctrl (v : Z) : M unit :=
  fun s =>
    let r := reg s in
    Some (tt, mk_state (sunxi_pwm_base_address s)
                       (mk_reg (to_uint v) (ch_period_0 r) (ch_period_1 r))
                       (CtrlWrite (to_uint v) :: bus s)).

(** Write of [reg->ch_period[ch]]; an index outside the array is undefined. *)
Definition store_ch_period (ch v : Z) : M unit :=
  fun s =>
    let r := reg s in
    if ch =? 0 then
      Some (tt, mk_state (sunxi_pwm_base_address s)
                         (mk_reg (ctrl r) (to_uint v) (ch_period_1 r))
                         (PeriodWrite ch (to_uint v) :: bus s))
    else if ch =? 1 then
      Some (tt, mk_state (sunxi_pwm_base_address s)
                         (mk_reg (ctrl r) (ch_period_0 r) (to_uint v))
                         (PeriodWrite ch (to_uint v) :: bus s))
    else None.

(** [reg->ctrl |= m], the mask [m] an [int] converted to [unsigned int]. *)
Definition ctrl_or (m : Z) : M unit :=
  c <- load_ctrl ;; store_ctrl (Z.lor c (to_uint m)).

(** [reg->ctrl &= ~m], the complement taken at the type of [m] and then
    converted to [unsigned int]. *)
Definition ctrl_and_not (m : Z) : M unit :=
  c <- load_ctrl ;; store_ctrl (Z.land c (to_uint (Z.lnot m))).

(** ** Exported functions *)

(** [sunxi_pwm_set_polarity]; the value of [SUNXI_PWM_POLARITY_NORMAL] is
    declared in [pwm.h] and is taken as a parameter. *)
Definition sunxi_pwm_set_polarity (SUNXI_PWM_POLARITY_NORMAL : Z) (ch pol : Z) : M Z :=
  fun s =>
    if sunxi_pwm_base_address s =? 0 then ret (- EPERM) s
    else
      (if pol =? SUNXI_PWM_POLARITY_NORMAL then
         (m <- defined (SUNXI_PWM_ACT_STATE ch) ;; ctrl_or m) ;;
         ret 0
       else
         (m <- defined (SUNXI_PWM_ACT_STATE ch) ;; ctrl_and_not m) ;;
         ret 0) s.

(** [unsigned int prescaler_table[]] of [sunxi_pwm_set_config]. *)
Definition prescaler_table : list Z :=
  [120; 180; 240; 360; 480; 0; 0; 0; 12000; 24000; 36000; 48000; 72000; 0; 0; 0].

(** [prescaler_table[prescaler]]; an index outside the array is undefined. *)
Definition table_at (prescaler : Z) : option Z :=
  if prescaler <? 0 then None else nth_error prescaler_table (Z.to_nat prescaler).

(** The four assignments to [div] in the loop body, for a non-zero divisor:
    [div = 24000000; div = div / divisor; div = div * period_ns;
     div = div / 1000000000]. *)
Definition ticks (divisor period_ns : Z) : Z :=
  let div := 24000000 in
  let div := div / divisor in
  let div := to_u64 (div * period_ns) in
  let div := div / 1000000000 in
  div.

(** [div - 1 <= 0xFFFF] at type [__u64]. *)
Definition fits16 (div : Z) : bool := to_u64 (div - 1) <=? 0xFFFF.

(** The [for] loop of [sunxi_pwm_set_config], from the test of its condition
    on; [div] is [None] until the body first assigns it.  The result is the
    pair of [prescaler] and [div] on leaving the loop; [None] is undefined
    behaviour or exhausted fuel. *)
Fixpoint prescaler_loop (fuel : nat) (period_ns prescaler : Z) (div : option Z)
  : option (Z * option Z) :=
  match fuel with
  | O => None
  | S fuel' =>
    if prescaler <? 0x0F then
      match table_at prescaler with
      | None => None
      | Some divisor =>
        if divisor =? 0 then
          (* continue *)
          prescaler_loop fuel' period_ns (to_uint (prescaler + 1)) div
        else
          let d := ticks divisor period_ns in
          if fits16 d then (* break *) Some (prescaler, Some d)
          else prescaler_loop fuel' period_ns (to_uint (prescaler + 1)) (Some d)
      end
    else Some (prescaler, div)
  end.

(** [((prd - 1) << 16) + (dty & 0xFFFF)] at type [unsigned int]. *)
Definition period_word (prd dty : Z) : Z :=
  to_uint (to_uint (Z.shiftl (to_uint (prd - 1)) 16) + Z.land dty 0xFFFF).

(** [sunxi_pwm_set_config]. *)
Definition sunxi_pwm_set_config (ch period_ns duty_ns : Z) : M Z :=
  fun s =>
    if sunxi_pwm_base_address s =? 0 then ret (- EPERM) s
    else
      (found <- defined (prescaler_loop 16 period_ns 0 None) ;;
       let prescaler := fst found in
       div <- defined (snd found) ;;
       if negb (fits16 div) then ret (- EINVAL)
       else
         let prd := to_uint div in
         let div := to_u64 (div * duty_ns) in
         div <- defined (div_u64 div period_ns) ;;
         let dty := to_uint div in
         (* clk_gating = reg->ctrl & SUNXI_PWM_CLK_GATING(ch); *)
         c <- load_ctrl ;;
         g <- defined (SUNXI_PWM_CLK_GATING ch) ;;
         let clk_gating := Z.land c (to_uint g) in
         (* reg->ctrl &= ~SUNXI_PWM_CLK_GATING(ch); *)
         (g <- defined (SUNXI_PWM_CLK_GATING ch) ;; ctrl_and_not g) ;;
         (* reg->ctrl &= ~SUNXI_PWM_PRESCALAR(ch, 0x0F); *)
         (p <- defined (SUNXI_PWM_PRESCALAR_int ch 0x0F) ;; ctrl_and_not p) ;;
         (* reg->ctrl |= SUNXI_PWM_PRESCALAR(ch, prescaler); *)
         (p <- defined (SUNXI_PWM_PRESCALAR_uint ch prescaler) ;; ctrl_or p) ;;
         (* reg->ch_period[ch] = ((prd - 1) << 16) + (dty & 0xFFFF); *)
         store_ch_period ch (period_word prd dty) ;;
         (* if (clk_gating != 0) reg->ctrl |= SUNXI_PWM_CLK_GATING(ch); *)
         (if negb (clk_gating =? 0)
          then g <- defined (SUNXI_PWM_CLK_GATING ch) ;; ctrl_or g
          else ret tt) ;;
         ret 0) s.

(** [sunxi_pwm_enable]. *)
Definition sunxi_pwm_enable (ch : Z) : M Z :=
  fun s =>
    if sunxi_pwm_base_address s =? 0 then ret (- EPERM) s
    else
      ((m <- defined (SUNXI_PWM_EN ch) ;; ctrl_or m) ;;
       (m <- defined (SUNXI_PWM_CLK_GATING ch) ;; ctrl_or m) ;;
       ret 0) s.

(** [sunxi_pwm_disable]. *)
Definition sunxi_pwm_disable (ch : Z) : M Z :=
  fun s =>
    if sunxi_pwm_base_address s =? 0 then ret (- EPERM) s
    else
      ((m <- defined (SUNXI_PWM_EN ch) ;; ctrl_and_not m) ;;
       (m <- defined (SUNXI_PWM_CLK_GATING ch) ;; ctrl_and_not m) ;;
       ret 0) s.

(** ** Specification-side notions *)

(** The tick count the loop body computes at table index [i]
    (0 where the entry is skipped or absent). *)
Definition tick_count (period_ns i : Z) : Z :=
  match table_at i with
  | Some divisor => if divisor =? 0 then 0 else ticks divisor period_ns
  | None => 0
  end.

(** Table index [i] holds a non-zero divisor whose tick count passes the
    test [div - 1 <= 0xFFFF]. *)
Definition usable (period_ns i : Z) : bool :=
  match table_at i with
  | Some divisor => negb (divisor =? 0) && fits16 (ticks divisor period_ns)
  | None => false
  end.

(** [i] is the first usable index of the table. *)
Definition first_usable (period_ns i : Z) : Prop :=
  0 <= i < 16 /\ usable period_ns i = true /\
  forall j, 0 <= j < i -> usable period_ns j = false.

(** No index of the table is usable. *)
Definition none_usable (period_ns : Z) : Prop :=
  forall j, 0 <= j < 16 -> usable period_ns j = false.

(** The duty-cycle tick count: [div *= duty_ns; div = div / period_ns]. *)
Definition duty_ticks (t period_ns duty_ns : Z) : Z :=
  to_u64 (t * duty_ns) / period_ns.

(** The 4-bit prescaler selector of channel [ch] in a control word. *)
Definition prescaler_field (ch c : Z) : Z :=
  Z.land (Z.shiftr c (15 * ch)) 0x0F.

(** The two PWM channels, [SUNXI_PWM_CH0] and [SUNXI_PWM_CH1]. *)
Definition channel (ch : Z) : Prop := ch = 0 \/ ch = 1.

(** The control word the register-write protocol leaves behind, given the
    word [c] it found and the selected [prescaler]. *)
Definition config_ctrl (ch prescaler c : Z) : Z :=
  let g := 2 ^ (6 + 15 * ch) in
  let c1 := Z.ldiff c g in
  let c2 := Z.ldiff c1 (Z.shiftl (Z.ones 4) (15 * ch)) in
  let c3 := Z.lor c2 (Z.shiftl prescaler (15 * ch)) in
  if Z.land c g =? 0 then c3 else Z.lor c3 g.

(** The tick count in exact integer arithmetic, as the specification writes
    it: [period_ns * (24_000_000 / divisor) / 1_000_000_000]. *)
Definition exact_ticks (divisor period_ns : Z) : Z :=
  period_ns * (24000000 / divisor) / 1000000000.


(** Named bits of the control register. *)
Definition en_bit (ch c : Z) : bool := Z.testbit c (4 + 15 * ch).
Definition act_state_bit (ch c : Z) : bool := Z.testbit c (5 + 15 * ch).
Definition clk_gating_bit (ch c : Z) : bool := Z.testbit c (6 + 15 * ch).

(** A mapped register block with all registers zero, and one on which
    channel 0 is running. *)
Definition state_at_reset : pwm_state :=
  mk_state 0xb6f00e00 (mk_reg 0 0 0) [].
Definition state_ch0_running : pwm_state :=
  mk_state 0xb6f00e00 (mk_reg 0x50 0 0) [].

(** The state a 50 Hz servo configuration of the running channel 0 leaves. *)
Definition state_ch0_reconfigured : pwm_state :=
  Eval vm_compute in
    match sunxi_pwm_set_config 0 20000000 1500000 state_ch0_running with
    | Some (_, s') => s'
    | None => state_ch0_running
    end.

(** ** Initialization and the operating system *)

(** [#define SUNXI_PWM_IO_BASE 0x01c20e00] *)
Definition SUNXI_PWM_IO_BASE : Z := 0x01c20e00.

(** What the operating system answers to the calls of [sunxi_pwm_init]:
    the result of [open] and the [errno] it leaves on failure, the result of
    [sysconf(_SC_PAGESIZE)], and the result of [mmap] ([None] is
    [MAP_FAILED]) with the [errno] it leaves on failure. *)
Record os_reply : Type := mk_os {
  open_fd : Z;
  open_errno : Z;
  sysconf_pagesize : Z;
  mmap_pc : option Z;
  mmap_errno : Z
}.

(** The system calls [sunxi_pwm_init] makes. *)
Inductive syscall : Type :=
| sys_open
| sys_sysconf
| sys_mmap (length fd offset : Z)
| sys_close (fd : Z).

(** [page_mask = (~(page_size-1))] at type [unsigned int]. *)
Definition page_mask (page_size : Z) : Z :=
  to_uint (Z.lnot (to_uint (page_size - 1))).

(** [addr_start = SUNXI_PWM_IO_BASE & page_mask] *)
Definition addr_start (page_size : Z) : Z :=
  Z.land SUNXI_PWM_IO_BASE (page_mask page_size).

(** [addr_offset = SUNXI_PWM_IO_BASE & ~page_mask] *)
Definition addr_offset (page_size : Z) : Z :=
  Z.land SUNXI_PWM_IO_BASE (to_uint (Z.lnot (page_mask page_size))).

(** [sunxi_pwm_init]: the return value and the system calls made, first
    call first.  The pointer [pc] is an address; its conversion to
    [unsigned int] keeps the low 32 bits. *)
Definition sunxi_pwm_init (os : os_reply) : M (Z * list syscall) :=
  fun s =>
    let fd := open_fd os in
    if fd <? 0 then ret (- open_errno os, [sys_open]) s
    else
      let page_size := to_uint (sysconf_pagesize os) in
      let start := addr_start page_size in
      let offset := addr_offset page_size in
      let map := sys_mmap (to_uint (page_size * 2)) fd start in
      match mmap_pc os with
      | None => ret (- mmap_errno os, [sys_open; sys_sysconf; map]) s
      | Some pc =>
        let base := to_uint pc in
        let base := to_uint (base + offset) in
        ret (0, [sys_open; sys_sysconf; map; sys_close fd])
            (mk_state base (reg s) (bus s))
      end.

(** ** Further specification-side notions *)

(** The register accesses of a successful [sunxi_pwm_set_config], latest
    first, up to and including the write of the period register: the
    clock-gating bit is read, the gate is closed, the prescaler field is
    cleared and set, and the period word [w] is written. *)
Definition config_accesses (ch prescaler c w : Z) : list access :=
  let g := 2 ^ (6 + 15 * ch) in
  let c1 := Z.ldiff c g in
  let c2 := Z.ldiff c1 (Z.shiftl (Z.ones 4) (15 * ch)) in
  let c3 := Z.lor c2 (Z.shiftl prescaler (15 * ch)) in
  [PeriodWrite ch w; CtrlWrite c3; CtrlRead; CtrlWrite c2; CtrlRead;
   CtrlWrite c1; CtrlRead; CtrlRead].

(** The accesses that restore the gate afterwards, when it was open. *)
Definition gate_restore (ch prescaler c : Z) : list access :=
  if Z.land c (2 ^ (6 + 15 * ch)) =? 0 then []
  else [CtrlWrite (config_ctrl ch prescaler c); CtrlRead].

(** The three registers stay 32-bit words and the mapping stays in place. *)
Definition kept (s s' : pwm_state) : Prop :=
  initialized s' /\ valid_regs s' /\
  sunxi_pwm_base_address s' = sunxi_pwm_base_address s.

(** The control word after [sunxi_pwm_enable], [sunxi_pwm_disable] and
    [sunxi_pwm_set_polarity], as a function of the word before. *)
Definition ctrl_enabled (ch c : Z) : Z :=
  Z.lor (Z.lor c (2 ^ (4 + 15 * ch))) (2 ^ (6 + 15 * ch)).
Definition ctrl_disabled (ch c : Z) : Z :=
  Z.ldiff (Z.ldiff c (2 ^ (4 + 15 * ch))) (2 ^ (6 + 15 * ch)).
Definition ctrl_polarized (NORMAL ch pol c : Z) : Z :=
  if pol =? NORMAL then Z.lor c (2 ^ (5 + 15 * ch))
  else Z.ldiff c (2 ^ (5 + 15 * ch)).

(** [m] returns 0 and rewrites the control register with [f], touching
    nothing else but the access log. *)
Definition ctrl_update (m : M Z) (f : Z -> Z) : Prop :=
  forall s, initialized s -> word32 (ctrl (reg s)) ->
    word32 (f (ctrl (reg s))) /\
    exists log,
      m s = Some (0, mk_state (sunxi_pwm_base_address s)
                       (mk_reg (f (ctrl (reg s)))
                               (ch_period_0 (reg s)) (ch_period_1 (reg s)))
                       log).

(** The registers after running [m1] and then [m2]. *)
Definition regs_after {A B} (m1 : M A) (m2 : M B) (s : pwm_state)
  : option sunxi_pwm_reg :=
  match m1 s with
  | Some (_, s1) =>
    match m2 s1 with
    | Some (_, s2) => Some (reg s2)
    | None => None
    end
  | None => None
  end.

(** The registers after running [m]. *)
Definition regs_of {A} (m : M A) (s : pwm_state) : option sunxi_pwm_reg :=
  match m s with
  | Some (_, s1) => Some (reg s1)
  | None => None
  end.

(** A mapping of the page at [0xb6f00000] on a system with 4096-byte
    pages, and the two ways [sunxi_pwm_init] can fail. *)
Definition os_mapped : os_reply := mk_os 3 0 4096 (Some 0xb6f00000) 0.
Definition os_open_denied : os_reply := mk_os (-1) 13 4096 None 0.
Definition os_mmap_denied : os_reply := mk_os 3 0 4096 None 1.

(** The process before [sunxi_pwm_init]. *)
Definition state_unmapped : pwm_state := mk_state 0 (mk_reg 0 0 0) [].

(** ** Proof automation *)

Ltac step_state := cbn [ctrl reg ch_period_0 ch_period_1 sunxi_pwm_base_address bus].

(** Side conditions on the concrete states above. *)
Ltac concrete_state :=
  unfold initialized, valid_regs, word32, word64, channel;
  cbn [state_at_reset state_ch0_running sunxi_pwm_base_address reg ctrl
       ch_period_0 ch_period_1];
  lia.

(** Case analysis on an index of the 16-entry table. *)
Ltac each_index i H :=
  let C := fresh "C" in
  assert (C : i = 0 \/ i = 1 \/ i = 2 \/ i = 3 \/ i = 4 \/ i = 5 \/ i = 6 \/ i = 7 \/
              i = 8 \/ i = 9 \/ i = 10 \/ i = 11 \/ i = 12 \/ i = 13 \/ i = 14 \/ i = 15)
    by lia;
  repeat (destruct C as [C | C]; [subst i | ]); [ .. | subst i].

(** ** The functions on concrete inputs *)

Example servo_on_channel_0 :
  sunxi_pwm_set_config 0 20000000 1500000 state_at_reset =
  Some (0, mk_state 0xb6f00e00 (mk_reg 0 (3999 * 2 ^ 16 + 300) 0)
             [PeriodWrite 0 (3999 * 2 ^ 16 + 300); CtrlWrite 0; CtrlRead;
              CtrlWrite 0; CtrlRead; CtrlWrite 0; CtrlRead; CtrlRead]).
Proof. vm_compute; reflexivity. Qed.

Example ten_seconds_on_channel_1 :
  option_map (fun r => (fst r, prescaler_field 1 (ctrl (reg (snd r)))))
             (sunxi_pwm_set_config 1 10000000000 5000000000 state_at_reset)
  = Some (0, 8).
Proof. vm_compute; reflexivity. Qed.

Example enable_channel_1 :
  option_map (fun r => (fst r, ctrl (reg (snd r))))
             (sunxi_pwm_enable 1 state_ch0_running)
  = Some (0, 0x50 + 2 ^ 19 + 2 ^ 21).
Proof. vm_compute; reflexivity. Qed.

Example enable_channel_2 : sunxi_pwm_enable 2 state_at_reset = None.
Proof. vm_compute; reflexivity. Qed.

Example zero_ticks_wrap : fits16 0 = false.
Proof. vm_compute; reflexivity. Qed.

(** ** Facts on the integer types *)

Lemma to_uint_small z : word32 z -> to_uint z = z.
Proof. unfold word32, to_uint; intros; apply Z.mod_small; lia. Qed.

Lemma to_u64_small z : word64 z -> to_u64 z = z.
Proof. unfold word64, to_u64; intros; apply Z.mod_small; lia. Qed.

Lemma to_uint_range z : word32 (to_uint z).
Proof. unfold word32, to_uint; apply Z.mod_pos_bound; lia. Qed.

Lemma to_u64_range z : word64 (to_u64 z).
Proof. unfold word64, to_u64; apply Z.mod_pos_bound; lia. Qed.

Lemma fits16_iff d : word64 d -> fits16 d = true <-> 1 <= d <= 65536.
Proof.
  unfold word64, fits16, to_u64; intros Hd.
  rewrite Z.leb_le.
  destruct (Z.eq_dec d 0) as [->|Hnz].
  - change ((0 - 1) mod 2 ^ 64) with (2 ^ 64 - 1); lia.
  - rewrite Z.mod_small by lia; lia.
Qed.

Lemma ticks_range divisor period_ns : word64 (ticks divisor period_ns).
Proof.
  unfold ticks.
  pose proof (to_u64_range (24000000 / divisor * period_ns)) as H.
  unfold word64 in *.
  split.
  - apply Z.div_pos; lia.
  - apply Z.le_lt_trans with (to_u64 (24000000 / divisor * period_ns)); [|lia].
    apply Z.div_le_upper_bound; lia.
Qed.

Lemma ticks_period_0 divisor : ticks divisor 0 = 0.
Proof. unfold ticks; rewrite Z.mul_0_r; reflexivity. Qed.

(** ** The prescaler table *)

Lemma table_at_defined i : 0 <= i < 16 -> exists divisor, table_at i = Some divisor.
Proof. intros H; each_index i H; eexists; reflexivity. Qed.

Lemma usable_15 period_ns : usable period_ns 15 = false.
Proof. reflexivity. Qed.

(** ** The prescaler search *)

(** One pass of the loop from index [p] on, with [div] already assigned a
    value that failed the test: the loop leaves either at the first usable
    index at or after [p] with its tick count, or at [0x0F] with a [div]
    that fails the test. *)
Lemma prescaler_loop_from fuel : forall period_ns p d0,
  0 <= p <= 15 -> (Z.to_nat (15 - p) < fuel)%nat ->
  fits16 d0 = false ->
  exists q d, prescaler_loop fuel period_ns p (Some d0) = Some (q, Some d) /\
    ((p <= q < 15 /\ usable period_ns q = true /\ d = tick_count period_ns q /\
      forall j, p <= j < q -> usable period_ns j = false)
     \/
     (q = 15 /\ fits16 d = false /\
      forall j, p <= j < 15 -> usable period_ns j = false)).
Proof.
  induction fuel as [|fuel IH]; intros period_ns p d0 Hp Hfuel Hd0; [lia|].
  cbn [prescaler_loop].
  destruct (Z.ltb_spec p 15) as [Hlt|Hge].
  - destruct (table_at_defined p ltac:(lia)) as [divisor Hdiv].
    rewrite Hdiv.
    assert (Hnext : to_uint (p + 1) = p + 1)
      by (apply to_uint_small; unfold word32; lia).
    rewrite Hnext.
    destruct (Z.eqb_spec divisor 0) as [Hz|Hnz].
    + destruct (IH period_ns (p + 1) d0 ltac:(lia) ltac:(lia) Hd0)
        as (q & d & Hrun & Hres).
      exists q, d; split; [exact Hrun|].
      assert (Hup : usable period_ns p = false).
      { unfold usable; rewrite Hdiv, Hz; reflexivity. }
      destruct Hres as [(Hq & Hu & Hd & Hmin) | (Hq & Hd & Hnone)]; [left | right].
      * repeat split; try lia; try assumption.
        intros j Hj; destruct (Z.eq_dec j p) as [->|]; [assumption | apply Hmin; lia].
      * repeat split; try assumption.
        intros j Hj; destruct (Z.eq_dec j p) as [->|]; [assumption | apply Hnone; lia].
    + destruct (fits16 (ticks divisor period_ns)) eqn:Hfit.
      * exists p, (ticks divisor period_ns); split; [reflexivity|].
        left; repeat split; try lia.
        -- unfold usable; rewrite Hdiv, Hfit.
           destruct (Z.eqb_spec divisor 0); [contradiction | reflexivity].
        -- unfold tick_count; rewrite Hdiv.
           destruct (Z.eqb_spec divisor 0); [contradiction | reflexivity].
      * destruct (IH period_ns (p + 1) (ticks divisor period_ns)
                    ltac:(lia) ltac:(lia) Hfit) as (q & d & Hrun & Hres).
        exists q, d; split; [exact Hrun|].
        assert (Hup : usable period_ns p = false).
        { unfold usable; rewrite Hdiv, Hfit; apply andb_false_r. }
        destruct Hres as [(Hq & Hu & Hd & Hmin) | (Hq & Hd & Hnone)]; [left | right].
        -- repeat split; try lia; try assumption.
           intros j Hj; destruct (Z.eq_dec j p) as [->|]; [assumption | apply Hmin; lia].
        -- repeat split; try assumption.
           intros j Hj; destruct (Z.eq_dec j p) as [->|]; [assumption | apply Hnone; lia].
  - assert (p = 15) by lia; subst p.
    exists 15, d0; split; [reflexivity|].
    right; repeat split; try assumption.
    intros j Hj; lia.
Qed.

(** The first iteration: [prescaler_table[0]] is 120. *)
Lemma prescaler_loop_first fuel period_ns div :
  prescaler_loop (S fuel) period_ns 0 div =
  if fits16 (ticks 120 period_ns) then Some (0, Some (ticks 120 period_ns))
  else prescaler_loop fuel period_ns 1 (Some (ticks 120 period_ns)).
Proof. reflexivity. Qed.

(** The loop as [sunxi_pwm_set_config] runs it: sixteen units of fuel are
    enough, [div] is assigned on leaving it, and it leaves at the first
    usable index, or at [0x0F] with a failing [div] when there is none. *)
Lemma prescaler_search period_ns :
  exists q d, prescaler_loop 16 period_ns 0 None = Some (q, Some d) /\
    ((first_usable period_ns q /\ d = tick_count period_ns q)
     \/
     (q = 15 /\ fits16 d = false /\ none_usable period_ns)).
Proof.
  rewrite prescaler_loop_first.
  destruct (fits16 (ticks 120 period_ns)) eqn:Hfit.
  - exists 0, (ticks 120 period_ns); split; [reflexivity|].
    left; split; [|reflexivity].
    repeat split; try lia.
    unfold usable; change (table_at 0) with (Some 120); cbv iota beta.
    rewrite Hfit; reflexivity.
  - destruct (prescaler_loop_from 15 period_ns 1 (ticks 120 period_ns)
                ltac:(lia) ltac:(cbn; lia) Hfit) as (q & d & Hrun & Hres).
    exists q, d; split; [exact Hrun|].
    assert (Hu0 : usable period_ns 0 = false).
    { unfold usable; change (table_at 0) with (Some 120); cbv iota beta.
      rewrite Hfit; reflexivity. }
    destruct Hres as [(Hq & Hu & Hd & Hmin) | (Hq & Hd & Hnone)]; [left | right].
    + split; [|exact Hd].
      repeat split; try lia; try assumption.
      intros j Hj; destruct (Z.eq_dec j 0) as [->|]; [assumption | apply Hmin; lia].
    + repeat split; try assumption.
      intros j Hj.
      destruct (Z.eq_dec j 0) as [->|]; [assumption|].
      destruct (Z.eq_dec j 15) as [->|]; [apply usable_15 | apply Hnone; lia].
Qed.

(** ** The macros on the two channels *)

Lemma SUNXI_PWM_EN_channel ch :
  channel ch -> SUNXI_PWM_EN ch = Some (2 ^ (4 + 15 * ch)).
Proof. intros [-> | ->]; reflexivity. Qed.

Lemma SUNXI_PWM_ACT_STATE_channel ch :
  channel ch -> SUNXI_PWM_ACT_STATE ch = Some (2 ^ (5 + 15 * ch)).
Proof. intros [-> | ->]; reflexivity. Qed.

Lemma SUNXI_PWM_CLK_GATING_channel ch :
  channel ch -> SUNXI_PWM_CLK_GATING ch = Some (2 ^ (6 + 15 * ch)).
Proof. intros [-> | ->]; reflexivity. Qed.

Lemma SUNXI_PWM_PRESCALAR_int_channel ch :
  channel ch -> SUNXI_PWM_PRESCALAR_int ch 0x0F = Some (Z.shiftl (Z.ones 4) (15 * ch)).
Proof. intros [-> | ->]; reflexivity. Qed.

Lemma SUNXI_PWM_PRESCALAR_uint_channel ch prescaler :
  channel ch -> 0 <= prescaler < 16 ->
  SUNXI_PWM_PRESCALAR_uint ch prescaler = Some (Z.shiftl prescaler (15 * ch)).
Proof.
  intros Hch Hp.
  unfold SUNXI_PWM_PRESCALAR_uint, shl_uint.
  assert (Hs : ch_shift ch = 15 * ch) by (destruct Hch as [-> | ->]; reflexivity).
  rewrite Hs.
  assert (Hr : (0 <=? 15 * ch) && (15 * ch <? 32) = true)
    by (destruct Hch as [-> | ->]; reflexivity).
  rewrite Hr.
  f_equal; apply to_uint_small; unfold word32.
  rewrite Z.shiftl_mul_pow2 by (destruct Hch; lia).
  destruct Hch as [-> | ->]; cbn; lia.
Qed.

(** ** Bit-level facts on 32-bit words *)

Lemma word32_high_bits c i : word32 c -> 32 <= i -> Z.testbit c i = false.
Proof.
  intros Hc Hi.
  rewrite <- (to_uint_small c Hc); unfold to_uint.
  apply Z.mod_pow2_bits_high; lia.
Qed.

Lemma testbit_to_uint z i : Z.testbit (to_uint z) i = (i <? 32) && Z.testbit z i.
Proof.
  unfold to_uint.
  destruct (Z.ltb_spec i 32); cbn [andb].
  - apply Z.mod_pow2_bits_low; assumption.
  - apply Z.mod_pow2_bits_high; lia.
Qed.

(** [c |= m] on a 32-bit word, for a mask inside the word. *)
Lemma or_word32 c m :
  word32 c -> word32 m -> to_uint (Z.lor c (to_uint m)) = Z.lor c m.
Proof.
  intros Hc Hm.
  rewrite (to_uint_small m Hm).
  apply Z.bits_inj'; intros i Hi.
  rewrite testbit_to_uint, Z.lor_spec.
  destruct (Z.ltb_spec i 32); [reflexivity|].
  rewrite (word32_high_bits c i), (word32_high_bits m i) by assumption.
  reflexivity.
Qed.

(** [c &= ~m] on a 32-bit word. *)
Lemma and_not_word32 c m :
  word32 c -> to_uint (Z.land c (to_uint (Z.lnot m))) = Z.ldiff c m.
Proof.
  intros Hc.
  apply Z.bits_inj'; intros i Hi.
  rewrite testbit_to_uint, Z.land_spec, testbit_to_uint, Z.ldiff_spec,
    Z.lnot_spec by assumption.
  destruct (Z.ltb_spec i 32); cbn.
  - reflexivity.
  - rewrite (word32_high_bits c i) by assumption; reflexivity.
Qed.

Lemma lor_word32 c m : word32 c -> word32 m -> word32 (Z.lor c m).
Proof.
  intros Hc Hm.
  rewrite <- (or_word32 c m Hc Hm); apply to_uint_range.
Qed.

Lemma ldiff_word32 c m : word32 c -> word32 (Z.ldiff c m).
Proof.
  intros Hc.
  rewrite <- (and_not_word32 c m Hc); apply to_uint_range.
Qed.

Lemma pow2_word32 k : 0 <= k < 32 -> word32 (2 ^ k).
Proof.
  intros Hk; unfold word32; split; [apply Z.pow_nonneg; lia|].
  apply Z.pow_lt_mono_r; lia.
Qed.

Lemma nibble_high_bits p i : 0 <= p < 16 -> 4 <= i -> Z.testbit p i = false.
Proof.
  intros Hp Hi.
  rewrite <- (Z.mod_small p (2 ^ 4)) by (cbn; lia).
  apply Z.mod_pow2_bits_high; lia.
Qed.

Lemma bit_word32 ch k : channel ch -> 0 <= k <= 6 -> word32 (2 ^ (k + 15 * ch)).
Proof. intros [-> | ->] Hk; apply pow2_word32; lia. Qed.

Lemma shifted_nibble_word32 ch p :
  channel ch -> 0 <= p < 16 -> word32 (Z.shiftl p (15 * ch)).
Proof.
  intros Hch Hp; unfold word32.
  rewrite Z.shiftl_mul_pow2 by (destruct Hch; lia).
  destruct Hch as [-> | ->]; cbn; lia.
Qed.

(** Range side conditions of the register accesses. *)
Create HintDb word32.
#[local] Hint Resolve to_uint_range lor_word32 ldiff_word32 shifted_nibble_word32
  : word32.
#[local] Hint Extern 1 (word32 (2 ^ (_ + 15 * _))) =>
  apply bit_word32; [assumption | lia] : word32.

Ltac word32_run := step_state; auto with word32.

(** ** Running the register accesses *)

Lemma ctrl_or_run m s :
  word32 (ctrl (reg s)) -> word32 m ->
  ctrl_or m s =
  Some (tt, mk_state (sunxi_pwm_base_address s)
                     (mk_reg (Z.lor (ctrl (reg s)) m)
                             (ch_period_0 (reg s)) (ch_period_1 (reg s)))
                     (CtrlWrite (Z.lor (ctrl (reg s)) m) :: CtrlRead :: bus s)).
Proof.
  intros Hc Hm.
  unfold ctrl_or, bind, load_ctrl, store_ctrl; cbn [ctrl reg ch_period_0 ch_period_1
    sunxi_pwm_base_address bus].
  rewrite (or_word32 _ _ Hc Hm); reflexivity.
Qed.

Lemma ctrl_and_not_run m s :
  word32 (ctrl (reg s)) ->
  ctrl_and_not m s =
  Some (tt, mk_state (sunxi_pwm_base_address s)
                     (mk_reg (Z.ldiff (ctrl (reg s)) m)
                             (ch_period_0 (reg s)) (ch_period_1 (reg s)))
                     (CtrlWrite (Z.ldiff (ctrl (reg s)) m) :: CtrlRead :: bus s)).
Proof.
  intros Hc.
  unfold ctrl_and_not, bind, load_ctrl, store_ctrl; cbn [ctrl reg ch_period_0 ch_period_1
    sunxi_pwm_base_address bus].
  rewrite (and_not_word32 _ _ Hc); reflexivity.
Qed.

Lemma initialized_test s : initialized s -> (sunxi_pwm_base_address s =? 0) = false.
Proof. unfold initialized; intros H; apply Z.eqb_neq; exact H. Qed.

(** The state [sunxi_pwm_enable] leaves behind. *)
Lemma sunxi_pwm_enable_run s ch :
  initialized s -> channel ch -> word32 (ctrl (reg s)) ->
  let c := Z.lor (ctrl (reg s)) (2 ^ (4 + 15 * ch)) in
  let c' := Z.lor c (2 ^ (6 + 15 * ch)) in
  sunxi_pwm_enable ch s =
  Some (0, mk_state (sunxi_pwm_base_address s)
                    (mk_reg c' (ch_period_0 (reg s)) (ch_period_1 (reg s)))
                    (CtrlWrite c' :: CtrlRead :: CtrlWrite c :: CtrlRead :: bus s)).
Proof.
  intros Hi Hch Hc c c'.
  unfold sunxi_pwm_enable.
  rewrite (initialized_test s Hi).
  rewrite (SUNXI_PWM_EN_channel ch Hch), (SUNXI_PWM_CLK_GATING_channel ch Hch).
  unfold bind, defined, ret.
  rewrite !ctrl_or_run by word32_run.
  reflexivity.
Qed.

(** The state [sunxi_pwm_disable] leaves behind. *)
Lemma sunxi_pwm_disable_run s ch :
  initialized s -> channel ch -> word32 (ctrl (reg s)) ->
  let c := Z.ldiff (ctrl (reg s)) (2 ^ (4 + 15 * ch)) in
  let c' := Z.ldiff c (2 ^ (6 + 15 * ch)) in
  sunxi_pwm_disable ch s =
  Some (0, mk_state (sunxi_pwm_base_address s)
                    (mk_reg c' (ch_period_0 (reg s)) (ch_period_1 (reg s)))
                    (CtrlWrite c' :: CtrlRead :: CtrlWrite c :: CtrlRead :: bus s)).
Proof.
  intros Hi Hch Hc c c'.
  unfold sunxi_pwm_disable.
  rewrite (initialized_test s Hi).
  rewrite (SUNXI_PWM_EN_channel ch Hch), (SUNXI_PWM_CLK_GATING_channel ch Hch).
  unfold bind, defined, ret.
  rewrite !ctrl_and_not_run by word32_run.
  reflexivity.
Qed.

(** The state [sunxi_pwm_set_polarity] leaves behind. *)
Lemma sunxi_pwm_set_polarity_run NORMAL s ch pol :
  initialized s -> channel ch -> word32 (ctrl (reg s)) ->
  let c' := if pol =? NORMAL
            then Z.lor (ctrl (reg s)) (2 ^ (5 + 15 * ch))
            else Z.ldiff (ctrl (reg s)) (2 ^ (5 + 15 * ch)) in
  sunxi_pwm_set_polarity NORMAL ch pol s =
  Some (0, mk_state (sunxi_pwm_base_address s)
                    (mk_reg c' (ch_period_0 (reg s)) (ch_period_1 (reg s)))
                    (CtrlWrite c' :: CtrlRead :: bus s)).
Proof.
  intros Hi Hch Hc c'; subst c'.
  unfold sunxi_pwm_set_polarity.
  rewrite (initialized_test s Hi).
  rewrite (SUNXI_PWM_ACT_STATE_channel ch Hch).
  destruct (pol =? NORMAL); unfold bind, defined, ret.
  - rewrite ctrl_or_run by word32_run; reflexivity.
  - rewrite ctrl_and_not_run by word32_run; reflexivity.
Qed.

(** ** Tick counts of usable entries *)

Lemma usable_tick_count period_ns i :
  usable period_ns i = true ->
  fits16 (tick_count period_ns i) = true /\ period_ns <> 0.
Proof.
  unfold usable, tick_count.
  destruct (table_at i) as [divisor|]; [|discriminate].
  destruct (divisor =? 0); cbn [negb andb]; [discriminate|].
  intros Hfit; split; [exact Hfit|].
  intros ->; rewrite ticks_period_0 in Hfit; discriminate.
Qed.

Lemma tick_count_range period_ns i : word64 (tick_count period_ns i).
Proof.
  unfold tick_count.
  destruct (table_at i) as [divisor|]; [|unfold word64; lia].
  destruct (divisor =? 0); [unfold word64; lia | apply ticks_range].
Qed.

Lemma first_usable_unique period_ns i j :
  first_usable period_ns i -> first_usable period_ns j -> i = j.
Proof.
  intros (Hi & Hui & Hmi) (Hj & Huj & Hmj).
  destruct (Z.lt_trichotomy i j) as [Hlt | [Heq | Hgt]]; [|exact Heq|].
  - rewrite (Hmj i) in Hui by lia; discriminate.
  - rewrite (Hmi j) in Huj by lia; discriminate.
Qed.

(** ** Bits of the control word after [sunxi_pwm_set_config] *)

Lemma land_pow2_eqb c k :
  0 <= k -> (Z.land c (2 ^ k) =? 0) = negb (Z.testbit c k).
Proof.
  intros Hk.
  destruct (Z.testbit c k) eqn:Hbit; cbn [negb].
  - apply Z.eqb_neq; intros H0.
    assert (Hb : Z.testbit (Z.land c (2 ^ k)) k = true)
      by (rewrite Z.land_spec, Hbit, Z.pow2_bits_true by assumption; reflexivity).
    rewrite H0, Z.bits_0 in Hb; discriminate.
  - apply Z.eqb_eq, Z.bits_inj'; intros i Hi.
    rewrite Z.land_spec, Z.bits_0, Z.pow2_bits_eqb by assumption.
    destruct (Z.eqb_spec k i) as [<-|]; [rewrite Hbit|]; auto using andb_false_r.
Qed.

(** Every bit of the new control word, in terms of the old one. *)
Lemma config_ctrl_testbit ch p c i :
  channel ch -> 0 <= i ->
  Z.testbit (config_ctrl ch p c) i =
  if i =? 6 + 15 * ch then Z.testbit c i || Z.testbit p (i - 15 * ch)
  else if (15 * ch <=? i) && (i <? 15 * ch + 4) then Z.testbit p (i - 15 * ch)
  else Z.testbit c i || Z.testbit p (i - 15 * ch).
Proof.
  intros Hch Hi.
  assert (Hs : 0 <= 15 * ch) by (destruct Hch; lia).
  unfold config_ctrl; cbv zeta.
  rewrite land_pow2_eqb by lia.
  destruct (Z.testbit c (6 + 15 * ch)) eqn:Hbit; cbn [negb];
    rewrite ?Z.lor_spec, ?Z.ldiff_spec, ?Z.pow2_bits_eqb, ?Z.shiftl_spec by lia;
    rewrite (Z.eqb_sym (6 + 15 * ch) i);
    destruct (Z.eqb_spec i (6 + 15 * ch)) as [->|Hne]; cbn [negb andb orb];
    rewrite ?Hbit, ?andb_false_r, ?orb_true_r, ?andb_true_r; cbn [orb]; trivial.
  all: destruct (Z.leb_spec (15 * ch) i); destruct (Z.ltb_spec i (15 * ch + 4));
    cbn [andb];
    rewrite ?(Z.testbit_neg_r (Z.ones 4)), ?Z.ones_spec_low, ?Z.ones_spec_high by lia;
    cbn [negb]; rewrite ?andb_false_r, ?andb_true_r, ?orb_false_r; cbn [orb]; trivial.
Qed.

Lemma config_ctrl_word32 ch p c :
  channel ch -> 0 <= p < 16 -> word32 c -> word32 (config_ctrl ch p c).
Proof.
  intros Hch Hp Hc.
  unfold config_ctrl; cbv zeta.
  destruct (_ =? 0); auto 6 with word32.
Qed.

(** The clock-gating bit is the one found. *)
Lemma config_ctrl_gating ch p c :
  channel ch -> 0 <= p < 16 ->
  Z.testbit (config_ctrl ch p c) (6 + 15 * ch) = Z.testbit c (6 + 15 * ch).
Proof.
  intros Hch Hp.
  rewrite config_ctrl_testbit by (assumption || (destruct Hch; lia)).
  rewrite Z.eqb_refl.
  replace (6 + 15 * ch - 15 * ch) with 6 by lia.
  rewrite (nibble_high_bits p 6) by lia.
  apply orb_false_r.
Qed.

(** The prescaler field holds the selected index. *)
Lemma config_ctrl_prescaler ch p c :
  channel ch -> 0 <= p < 16 -> prescaler_field ch (config_ctrl ch p c) = p.
Proof.
  intros Hch Hp.
  assert (Hs : 0 <= 15 * ch) by (destruct Hch; lia).
  unfold prescaler_field.
  apply Z.bits_inj'; intros i Hi.
  change (Z.land ?a 0x0F) with (Z.land a (Z.ones 4)).
  rewrite Z.land_spec, Z.shiftr_spec, config_ctrl_testbit by (assumption || lia).
  replace (i + 15 * ch - 15 * ch) with i by lia.
  destruct (Z.ltb_spec i 4) as [Hlt|Hge].
  - rewrite Z.ones_spec_low by lia.
    destruct (Z.eqb_spec (i + 15 * ch) (6 + 15 * ch)); [lia|].
    destruct (Z.leb_spec (15 * ch) (i + 15 * ch)); [|lia].
    destruct (Z.ltb_spec (i + 15 * ch) (15 * ch + 4)); [|lia].
    apply andb_true_r.
  - rewrite Z.ones_spec_high, (nibble_high_bits p i) by lia.
    apply andb_false_r.
Qed.

(** Outside the prescaler field, no bit of the control word changes. *)
Lemma config_ctrl_frame ch p c i :
  channel ch -> 0 <= p < 16 -> 0 <= i ->
  ~ (15 * ch <= i < 15 * ch + 4) ->
  Z.testbit (config_ctrl ch p c) i = Z.testbit c i.
Proof.
  intros Hch Hp Hi Hout.
  assert (Hs : 0 <= 15 * ch) by (destruct Hch; lia).
  rewrite config_ctrl_testbit by assumption.
  assert (Hp0 : Z.testbit p (i - 15 * ch) = false).
  { destruct (Z.lt_ge_cases i (15 * ch)).
    - apply Z.testbit_neg_r; lia.
    - apply nibble_high_bits; lia. }
  rewrite Hp0, orb_false_r.
  destruct (i =? 6 + 15 * ch); [reflexivity|].
  destruct (Z.leb_spec (15 * ch) i); destruct (Z.ltb_spec i (15 * ch + 4));
    cbn [andb]; try reflexivity; lia.
Qed.

(** ** The period word *)

Lemma low16 z : Z.land z 0xFFFF = z mod 2 ^ 16.
Proof. change 0xFFFF with (Z.ones 16); apply Z.land_ones; lia. Qed.

Lemma low4 z : Z.land z 0x0F = z mod 2 ^ 4.
Proof. change 0x0F with (Z.ones 4); apply Z.land_ones; lia. Qed.

Lemma low16_to_uint z : Z.land (to_uint z) 0xFFFF = Z.land z 0xFFFF.
Proof.
  rewrite !low16; unfold to_uint.
  apply Z.mod_mod_divide.
  exists (2 ^ 16); reflexivity.
Qed.

(** [((prd - 1) << 16) + (dty & 0xFFFF)] does not wrap when [prd - 1] fits
    in 16 bits. *)
Lemma period_word_value prd dty :
  1 <= prd <= 65536 ->
  period_word prd dty = (prd - 1) * 2 ^ 16 + dty mod 2 ^ 16.
Proof.
  intros Hprd.
  pose proof (Z.mod_pos_bound dty (2 ^ 16) ltac:(lia)) as Hlow.
  unfold period_word.
  rewrite low16, (to_uint_small (prd - 1)) by (unfold word32; lia).
  rewrite Z.shiftl_mul_pow2 by lia.
  rewrite (to_uint_small ((prd - 1) * 2 ^ 16)) by (unfold word32; lia).
  apply to_uint_small; unfold word32; lia.
Qed.

(** Bits 31-16 of the period word hold [prd - 1], bits 15-0 the low 16 bits
    of [dty]. *)
Lemma period_word_fields prd dty :
  1 <= prd <= 65536 ->
  word32 (period_word prd dty) /\
  Z.shiftr (period_word prd dty) 16 = prd - 1 /\
  Z.land (period_word prd dty) 0xFFFF = Z.land dty 0xFFFF.
Proof.
  intros Hprd.
  pose proof (Z.mod_pos_bound dty (2 ^ 16) ltac:(lia)) as Hlow.
  split; [apply to_uint_range|].
  rewrite (period_word_value prd dty Hprd), Z.shiftr_div_pow2, !low16 by lia.
  split.
  - rewrite Z.div_add_l by lia.
    rewrite (Z.div_small (dty mod 2 ^ 16)) by lia; lia.
  - rewrite Z.add_comm, Z.mod_add by lia.
    apply Z.mod_mod; lia.
Qed.

(** ** The two outcomes of the search *)

Lemma first_usable_or_none period_ns :
  (exists i, first_usable period_ns i) \/ none_usable period_ns.
Proof.
  destruct (prescaler_search period_ns)
    as (q & d & _ & [(Hfirst & _) | (_ & _ & Hnone)]).
  - left; exists q; exact Hfirst.
  - right; exact Hnone.
Qed.

Lemma usable_first period_ns k :
  0 <= k < 16 -> usable period_ns k = true -> exists i, first_usable period_ns i.
Proof.
  intros Hk Hu.
  destruct (first_usable_or_none period_ns) as [Hex | Hnone]; [exact Hex|].
  rewrite (Hnone k Hk) in Hu; discriminate.
Qed.

Lemma first_usable_ticks period_ns i :
  first_usable period_ns i -> 1 <= tick_count period_ns i <= 65536 /\ period_ns <> 0.
Proof.
  intros (_ & Hu & _).
  destruct (usable_tick_count _ _ Hu) as (Hfit & Hper).
  split; [|exact Hper].
  apply fits16_iff; [apply tick_count_range | exact Hfit].
Qed.







(** ** Exactness of the tick count *)

Lemma table_entry_bounds divisor :
  In divisor prescaler_table -> divisor <> 0 -> 120 <= divisor <= 72000.
Proof. unfold prescaler_table; cbn [In]; intuition lia. Qed.

Lemma table_at_In i divisor : table_at i = Some divisor -> In divisor prescaler_table.
Proof.
  unfold table_at; destruct (i <? 0); [discriminate|].
  apply nth_error_In.
Qed.

Lemma clock_rate_bounds divisor :
  120 <= divisor <= 72000 -> 0 <= 24000000 / divisor <= 200000.
Proof.
  intros Hd; split.
  - apply Z.div_pos; lia.
  - apply Z.div_le_upper_bound; lia.
Qed.

(** ** Periods too short for any prescaler *)

Lemma short_period_tick_count period_ns i :
  0 <= period_ns < 5000 -> tick_count period_ns i = 0.
Proof.
  intros Hp; unfold tick_count.
  destruct (table_at i) as [divisor|] eqn:Hat; [|reflexivity].
  destruct (Z.eqb_spec divisor 0) as [|Hnz]; [reflexivity|].
  pose proof (clock_rate_bounds divisor
                (table_entry_bounds divisor (table_at_In i divisor Hat) Hnz)) as Hx.
  unfold ticks; cbv zeta.
  rewrite to_u64_small by (unfold word64; nia).
  apply Z.div_small; nia.
Qed.

Lemma zero_ticks_none_usable period_ns :
  (forall i, 0 <= i < 16 -> tick_count period_ns i = 0) -> none_usable period_ns.
Proof.
  intros Hzero j Hj.
  destruct (usable period_ns j) eqn:Hu; [|reflexivity].
  destruct (usable_tick_count _ _ Hu) as (Hfit & _).
  rewrite (Hzero j Hj) in Hfit; discriminate.
Qed.

(** ** Running [sunxi_pwm_set_config] *)

Section Configure.

(** One call on an initialized state, for a channel in {0,1}. *)
Variable s : pwm_state.
Variables ch period_ns duty_ns : Z.
Hypothesis Hi : initialized s.
Hypothesis Hch : channel ch.
Hypothesis Hc : word32 (ctrl (reg s)).

Lemma sunxi_pwm_set_config_none :
  none_usable period_ns ->
  sunxi_pwm_set_config ch period_ns duty_ns s = Some (- EINVAL, s).
Proof.
  intros Hnone.
  unfold sunxi_pwm_set_config.
  rewrite (initialized_test s Hi).
  destruct (prescaler_search period_ns)
    as (q & d & Hrun & [((Hq & Hu & _) & _) | (Hq & Hd & _)]).
  - rewrite (Hnone q Hq) in Hu; discriminate.
  - unfold bind at 1; rewrite Hrun; cbn [defined ret fst snd].
    unfold bind at 1; cbn [defined ret]; rewrite Hd; reflexivity.
Qed.

Lemma sunxi_pwm_set_config_found q :
  first_usable period_ns q ->
  let t := tick_count period_ns q in
  let w := period_word t (to_uint (duty_ticks t period_ns duty_ns)) in
  exists s',
    sunxi_pwm_set_config ch period_ns duty_ns s = Some (0, s') /\
    sunxi_pwm_base_address s' = sunxi_pwm_base_address s /\
    ctrl (reg s') = config_ctrl ch q (ctrl (reg s)) /\
    ch_period (reg s') ch = Some w /\
    ch_period (reg s') (1 - ch) = ch_period (reg s) (1 - ch).
Proof.
  intros Hfirst t w.
  unfold sunxi_pwm_set_config.
  rewrite (initialized_test s Hi).
  destruct (prescaler_search period_ns)
    as (q' & d & Hrun & [(Hfirst' & Hd) | (_ & _ & Hnone)]).
  2:{ destruct Hfirst as (Hq & Hu & _); rewrite (Hnone q Hq) in Hu; discriminate. }
  assert (q' = q) by (eapply first_usable_unique; eassumption); subst q'.
  destruct Hfirst as (Hq & Hu & Hmin).
  destruct (usable_tick_count _ _ Hu) as (Hfit & Hper).
  fold t in Hd, Hfit; subst d.
  unfold bind at 1; rewrite Hrun; cbn [defined ret fst snd].
  unfold bind at 1; cbn [defined ret]; rewrite Hfit; cbn [negb].
  assert (Ht : 1 <= t <= 65536)
    by (apply fits16_iff; [apply tick_count_range | exact Hfit]).
  unfold div_u64; rewrite (proj2 (Z.eqb_neq _ _) Hper).
  rewrite (SUNXI_PWM_CLK_GATING_channel ch Hch),
    (SUNXI_PWM_PRESCALAR_int_channel ch Hch),
    (SUNXI_PWM_PRESCALAR_uint_channel ch q Hch Hq).
  assert (Hg : word32 (2 ^ (6 + 15 * ch))) by auto with word32.
  rewrite (to_uint_small t) by (unfold word32; lia).
  cbv [bind defined ret load_ctrl]; step_state.
  rewrite (to_uint_small _ Hg).
  rewrite ctrl_and_not_run by word32_run; step_state.
  set (c1 := Z.ldiff (ctrl (reg s)) (2 ^ (6 + 15 * ch))).
  assert (Hc1 : word32 c1) by (subst c1; auto with word32).
  rewrite ctrl_and_not_run by word32_run; step_state.
  set (c2 := Z.ldiff c1 (Z.shiftl (Z.ones 4) (15 * ch))).
  assert (Hc2 : word32 c2) by (subst c2; auto with word32).
  rewrite ctrl_or_run by word32_run; step_state.
  set (c3 := Z.lor c2 (Z.shiftl q (15 * ch))).
  assert (Hc3 : word32 c3) by (subst c3; auto with word32).
  assert (Hw : to_uint (period_word t (to_uint (to_u64 (t * duty_ns) / period_ns))) = w)
    by (apply to_uint_small, to_uint_range).
  unfold store_ch_period; step_state; rewrite Hw.
  unfold config_ctrl; cbv zeta; fold c1; fold c2; fold c3.
  destruct (Z.land (ctrl (reg s)) (2 ^ (6 + 15 * ch)) =? 0); cbn [negb];
    destruct Hch as [-> | ->];
    change (0 =? 0) with true; change (1 =? 0) with false;
    change (1 =? 1) with true; cbv iota;
    try (rewrite ctrl_or_run by word32_run; step_state);
    eexists; (split; [reflexivity|]); step_state; repeat split; reflexivity.
Qed.

(** What a successful [sunxi_pwm_set_config] has done. *)
Lemma sunxi_pwm_set_config_success s' :
  sunxi_pwm_set_config ch period_ns duty_ns s = Some (0, s') ->
  exists i,
    first_usable period_ns i /\
    ctrl (reg s') = config_ctrl ch i (ctrl (reg s)) /\
    ch_period (reg s') ch =
      Some (period_word (tick_count period_ns i)
              (to_uint (duty_ticks (tick_count period_ns i) period_ns duty_ns))) /\
    ch_period (reg s') (1 - ch) = ch_period (reg s) (1 - ch).
Proof.
  intros Hrun.
  destruct (first_usable_or_none period_ns) as [[i Hfirst] | Hnone].
  - destruct (sunxi_pwm_set_config_found i Hfirst)
      as (s'' & Hrun' & _ & Hctrl & Hper & Hother).
    rewrite Hrun in Hrun'; injection Hrun' as <-.
    exists i.
    split; [exact Hfirst | split; [exact Hctrl | split; [exact Hper | exact Hother]]].
  - rewrite (sunxi_pwm_set_config_none Hnone) in Hrun.
    discriminate.
Qed.

(** [sunxi_pwm_set_config] always returns on an initialized state and a
    channel in {0,1}: the loop ends within its fuel, [div] is assigned, no
    shift or index is out of range and the division by [period_ns] is only
    reached with a non-zero [period_ns]. *)
Lemma sunxi_pwm_set_config_defined :
  exists r s',
    sunxi_pwm_set_config ch period_ns duty_ns s = Some (r, s') /\
    (r = 0 \/ r = - EINVAL) /\
    (r = 0 -> period_ns <> 0) /\
    (r = - EINVAL -> s' = s).
Proof.
  destruct (first_usable_or_none period_ns) as [[i Hfirst] | Hnone].
  - destruct (sunxi_pwm_set_config_found i Hfirst)
      as (s' & Hrun & _).
    exists 0, s'; split; [exact Hrun|].
    split; [left; reflexivity|].
    split; [intros _; apply (first_usable_ticks period_ns i Hfirst)|].
    unfold EINVAL; lia.
  - exists (- EINVAL), s.
    split; [apply sunxi_pwm_set_config_none; assumption|].
    split; [right; reflexivity|].
    split; [unfold EINVAL; lia | reflexivity].
Qed.

End Configure.

(** ** The complete effect of [sunxi_pwm_set_config] *)

Section ConfigureEffect.

Variable s : pwm_state.
Variables ch period_ns duty_ns : Z.
Hypothesis Hi : initialized s.
Hypothesis Hch : channel ch.
Hypothesis Hc : word32 (ctrl (reg s)).

(** The state a successful call leaves, registers and access log. *)
Lemma sunxi_pwm_set_config_effect q :
  first_usable period_ns q ->
  let t := tick_count period_ns q in
  let w := period_word t (to_uint (duty_ticks t period_ns duty_ns)) in
  let c := ctrl (reg s) in
  sunxi_pwm_set_config ch period_ns duty_ns s =
  Some (0, mk_state (sunxi_pwm_base_address s)
                    (mk_reg (config_ctrl ch q c)
                            (if ch =? 0 then w else ch_period_0 (reg s))
                            (if ch =? 0 then ch_period_1 (reg s) else w))
                    (gate_restore ch q c ++ config_accesses ch q c w ++ bus s)).
Proof.
  intros Hfirst t w c.
  unfold sunxi_pwm_set_config.
  rewrite (initialized_test s Hi).
  destruct (prescaler_search period_ns)
    as (q' & d & Hrun & [(Hfirst' & Hd) | (_ & _ & Hnone)]).
  2:{ destruct Hfirst as (Hq & Hu & _); rewrite (Hnone q Hq) in Hu; discriminate. }
  assert (q' = q) by (eapply first_usable_unique; eassumption); subst q'.
  destruct Hfirst as (Hq & Hu & Hmin).
  destruct (usable_tick_count _ _ Hu) as (Hfit & Hper).
  fold t in Hd, Hfit; subst d.
  unfold bind at 1; rewrite Hrun; cbn [defined ret fst snd].
  unfold bind at 1; cbn [defined ret]; rewrite Hfit; cbn [negb].
  assert (Ht : 1 <= t <= 65536)
    by (apply fits16_iff; [apply tick_count_range | exact Hfit]).
  unfold div_u64; rewrite (proj2 (Z.eqb_neq _ _) Hper).
  rewrite (SUNXI_PWM_CLK_GATING_channel ch Hch),
    (SUNXI_PWM_PRESCALAR_int_channel ch Hch),
    (SUNXI_PWM_PRESCALAR_uint_channel ch q Hch Hq).
  assert (Hg : word32 (2 ^ (6 + 15 * ch))) by auto with word32.
  rewrite (to_uint_small t) by (unfold word32; lia).
  cbv [bind defined ret load_ctrl]; step_state.
  rewrite (to_uint_small _ Hg).
  rewrite ctrl_and_not_run by word32_run; step_state.
  fold c.
  set (c1 := Z.ldiff c (2 ^ (6 + 15 * ch))).
  assert (Hc1 : word32 c1) by (subst c1 c; auto with word32).
  rewrite ctrl_and_not_run by word32_run; step_state.
  set (c2 := Z.ldiff c1 (Z.shiftl (Z.ones 4) (15 * ch))).
  assert (Hc2 : word32 c2) by (subst c2; auto with word32).
  rewrite ctrl_or_run by word32_run; step_state.
  set (c3 := Z.lor c2 (Z.shiftl q (15 * ch))).
  assert (Hc3 : word32 c3) by (subst c3; auto with word32).
  assert (Hw : to_uint (period_word t (to_uint (to_u64 (t * duty_ns) / period_ns))) = w)
    by (apply to_uint_small, to_uint_range).
  unfold store_ch_period; step_state; rewrite Hw.
  unfold gate_restore, config_accesses, config_ctrl; cbv zeta;
    fold c1; fold c2; fold c3.
  destruct (Z.land c (2 ^ (6 + 15 * ch)) =? 0); cbn [negb app];
    destruct Hch as [-> | ->];
    change (0 =? 0) with true; change (1 =? 0) with false;
    change (1 =? 1) with true; cbv iota;
    try (rewrite ctrl_or_run by word32_run; step_state);
    reflexivity.
Qed.

End ConfigureEffect.

(** A successful call is the one described by [sunxi_pwm_set_config_effect]
    at the first usable index. *)
Lemma sunxi_pwm_set_config_success_effect s ch period_ns duty_ns s' :
  initialized s -> channel ch -> word32 (ctrl (reg s)) ->
  sunxi_pwm_set_config ch period_ns duty_ns s = Some (0, s') ->
  exists i,
    first_usable period_ns i /\
    let t := tick_count period_ns i in
    let w := period_word t (to_uint (duty_ticks t period_ns duty_ns)) in
    let c := ctrl (reg s) in
    s' = mk_state (sunxi_pwm_base_address s)
                  (mk_reg (config_ctrl ch i c)
                          (if ch =? 0 then w else ch_period_0 (reg s))
                          (if ch =? 0 then ch_period_1 (reg s) else w))
                  (gate_restore ch i c ++ config_accesses ch i c w ++ bus s).
Proof.
  intros Hi Hch Hc Hrun.
  destruct (first_usable_or_none period_ns) as [[i Hfirst] | Hnone].
  - exists i; split; [exact Hfirst|].
    intros t w c.
    pose proof (sunxi_pwm_set_config_effect s ch period_ns duty_ns Hi Hch Hc i Hfirst)
      as Heff.
    cbv zeta in Heff; rewrite Hrun in Heff.
    injection Heff as ->; reflexivity.
  - rewrite (sunxi_pwm_set_config_none s ch period_ns duty_ns Hi Hnone) in Hrun.
    discriminate.
Qed.

(** ** Usable entries below the wrap of the product *)

(** Below the wrap of the 64-bit product, an entry is usable exactly when
    the clock count of the period lies between one tick and 65536 ticks. *)
Lemma usable_bounds i divisor period_ns :
  table_at i = Some divisor -> divisor <> 0 ->
  0 <= period_ns <= 92233720368547 ->
  usable period_ns i = true <->
  1000000000 <= 24000000 / divisor * period_ns < 65537000000000.
Proof.
  intros Hat Hnz Hp.
  pose proof (clock_rate_bounds divisor
                (table_entry_bounds divisor (table_at_In i divisor Hat) Hnz)) as Hx.
  unfold usable; rewrite Hat.
  destruct (Z.eqb_spec divisor 0) as [|_]; [contradiction|]; cbn [negb andb].
  rewrite (fits16_iff _ (ticks_range divisor period_ns)).
  unfold ticks; cbv zeta.
  rewrite to_u64_small by (unfold word64; nia).
  set (a := 24000000 / divisor * period_ns).
  pose proof (Z.div_mod a 1000000000 ltac:(lia)) as Hdm.
  pose proof (Z.mod_pos_bound a 1000000000 ltac:(lia)) as Hmod.
  lia.
Qed.

Lemma usable_entry period_ns i :
  usable period_ns i = true ->
  exists divisor, table_at i = Some divisor /\ 120 <= divisor <= 72000.
Proof.
  unfold usable.
  destruct (table_at i) as [divisor|] eqn:Hat; [|discriminate].
  destruct (Z.eqb_spec divisor 0) as [|Hnz]; [discriminate|]; intros _.
  exists divisor; split; [reflexivity|].
  apply table_entry_bounds; [eapply table_at_In; exact Hat | exact Hnz].
Qed.

Lemma clock_rate_lower divisor : 120 <= divisor <= 72000 -> 333 <= 24000000 / divisor.
Proof. intros Hd; apply Z.div_le_lower_bound; lia. Qed.

(** * Properties of the register interface *)

(** C1. For every initialized state, channel in {0,1} and 64-bit [period_ns]
    and [duty_ns]: if some non-zero entry of the prescaler table yields a
    tick count [ticks = (24000000 / divisor) * period_ns / 1000000000]
    (unsigned 64-bit arithmetic) with [ticks - 1 <= 65535] (again at type
    [__u64], so a tick count of 0 does not pass), then
    [sunxi_pwm_set_config] returns 0, the index [i] it writes into the
    channel's 4-bit prescaler field is the smallest such index, and the
    channel's period register holds [ticks - 1] in its upper half and the
    low 16 bits of [ticks * duty_ns / period_ns] in its lower half, the duty
    count being computed from the rounded [ticks] in the same 64-bit
    arithmetic (it is the exact quotient whenever [ticks * duty_ns] is below
    [2^64], which holds for every [duty_ns] below [2^48]). *)
Theorem C1_set_config_selects_first_prescaler :
  forall s ch period_ns duty_ns,
    initialized s -> valid_regs s -> channel ch ->
    word64 period_ns -> word64 duty_ns ->
    (exists k, 0 <= k < 16 /\ usable period_ns k = true) ->
    exists i s' w,
      first_usable period_ns i /\
      sunxi_pwm_set_config ch period_ns duty_ns s = Some (0, s') /\
      prescaler_field ch (ctrl (reg s')) = i /\
      ch_period (reg s') ch = Some w /\
      Z.shiftr w 16 = tick_count period_ns i - 1 /\
      Z.land w 0xFFFF =
        Z.land (duty_ticks (tick_count period_ns i) period_ns duty_ns) 0xFFFF /\
      (tick_count period_ns i * duty_ns < 2 ^ 64 ->
       duty_ticks (tick_count period_ns i) period_ns duty_ns =
       tick_count period_ns i * duty_ns / period_ns) /\
      (duty_ns < 2 ^ 48 -> tick_count period_ns i * duty_ns < 2 ^ 64).
Proof.
  intros s ch period_ns duty_ns Hi (Hc & _) Hch Hp Hd (k & Hk & Hu).
  destruct (usable_first period_ns k Hk Hu) as (i & Hfirst).
  destruct (sunxi_pwm_set_config_found s ch period_ns duty_ns Hi Hch Hc i Hfirst)
    as (s' & Hrun & _ & Hctrl & Hper & _).
  destruct (first_usable_ticks period_ns i Hfirst) as (Ht & Hnz).
  destruct (period_word_fields (tick_count period_ns i)
              (to_uint (duty_ticks (tick_count period_ns i) period_ns duty_ns)) Ht)
    as (_ & Hhigh & Hlow).
  exists i, s'; eexists.
  split; [exact Hfirst|].
  split; [exact Hrun|].
  split; [rewrite Hctrl; apply config_ctrl_prescaler; [exact Hch | apply Hfirst]|].
  split; [exact Hper|].
  split; [exact Hhigh|].
  split; [rewrite Hlow; apply low16_to_uint|].
  unfold word64 in *; split.
  - intros Hsmall; unfold duty_ticks.
    rewrite to_u64_small by (unfold word64; nia); reflexivity.
  - intros Hsmall; nia.
Qed.

Lemma C1_set_config_selects_first_prescaler_witness :
  exists i s' w,
    first_usable 20000000 i /\
    sunxi_pwm_set_config 1 20000000 1500000 state_at_reset = Some (0, s') /\
    prescaler_field 1 (ctrl (reg s')) = i /\
    ch_period (reg s') 1 = Some w /\
    Z.shiftr w 16 = tick_count 20000000 i - 1 /\
    Z.land w 0xFFFF = Z.land (duty_ticks (tick_count 20000000 i) 20000000 1500000) 0xFFFF /\
    (tick_count 20000000 i * 1500000 < 2 ^ 64 ->
     duty_ticks (tick_count 20000000 i) 20000000 1500000 =
     tick_count 20000000 i * 1500000 / 20000000) /\
    (1500000 < 2 ^ 48 -> tick_count 20000000 i * 1500000 < 2 ^ 64).
Proof.
  apply (C1_set_config_selects_first_prescaler state_at_reset 1 20000000 1500000);
    try concrete_state.
  exists 0; split; [lia | reflexivity].
Defined.

(** C2, as stated, fails: for [period_ns = 92233720373548] (about 25.6
    hours) every non-zero divisor of the table gives an exact tick count far
    above 65536, the smallest being 30713828, so no prescaler can represent
    the period; but at divisor 120 the 64-bit product wraps to 1000048384,
    the computed tick count is 1, and [sunxi_pwm_set_config] returns 0 and
    writes the period register. *)
Lemma C2_counterexample :
  initialized state_at_reset /\
  (forall divisor, In divisor prescaler_table -> divisor <> 0 ->
                   65535 < exact_ticks divisor 92233720373548 - 1) /\
  ticks 120 92233720373548 = 1 /\
  exists s',
    sunxi_pwm_set_config 0 92233720373548 92233720373548 state_at_reset
      = Some (0, s') /\
    ch_period_0 (reg s') = 1 /\
    ch_period_0 (reg state_at_reset) = 0.
Proof.
  split; [concrete_state|].
  split.
  { unfold prescaler_table; cbn [In]; intros divisor Hin Hnz.
    repeat (destruct Hin as [<- | Hin]; [try lia; vm_compute; reflexivity|]).
    destruct Hin. }
  split; [reflexivity|].
  eexists; split; [vm_compute; reflexivity|].
  split; reflexivity.
Qed.

Lemma exact_ticks_none_usable period_ns :
  0 <= period_ns <= 92233720368547 ->
  (forall divisor, In divisor prescaler_table -> divisor <> 0 ->
                   ~ (1 <= exact_ticks divisor period_ns <= 65536)) ->
  none_usable period_ns.
Proof.
  intros Hp Hnone j Hj.
  destruct (usable period_ns j) eqn:Hu; [exfalso | reflexivity].
  destruct (usable_entry period_ns j Hu) as (divisor & Hat & Hd).
  pose proof (proj1 (usable_bounds j divisor period_ns Hat ltac:(lia) Hp) Hu) as Hb.
  apply (Hnone divisor (table_at_In j divisor Hat) ltac:(lia)).
  unfold exact_ticks.
  rewrite (Z.mul_comm period_ns).
  set (a := 24000000 / divisor * period_ns) in *.
  pose proof (Z.div_mod a 1000000000 ltac:(lia)) as Hdm.
  pose proof (Z.mod_pos_bound a 1000000000 ltac:(lia)) as Hmod.
  lia.
Qed.

(** C2, amended. For every initialized state and every channel argument:
    if no entry of the prescaler table yields, in the code's unsigned 64-bit
    arithmetic, a tick count with [ticks - 1 <= 65535], then
    [sunxi_pwm_set_config] returns [-EINVAL] and leaves the whole state as
    it was: the control register and both period registers are unchanged
    and the bus log shows no access.  For every [period_ns] up to
    92233720368547, below the wrap of the 64-bit product, this is the case
    as soon as no non-zero divisor of the table gives an exact tick count
    [period_ns * (24000000 / divisor) / 1000000000] between 1 and 65536.
    Nothing is promised for a longer period whose product wraps. *)
Theorem C2_set_config_no_prescaler_below_wrap :
  forall s ch period_ns duty_ns,
    initialized s ->
    none_usable period_ns \/
    (0 <= period_ns <= 92233720368547 /\
     forall divisor, In divisor prescaler_table -> divisor <> 0 ->
                     ~ (1 <= exact_ticks divisor period_ns <= 65536)) ->
    sunxi_pwm_set_config ch period_ns duty_ns s = Some (- EINVAL, s).
Proof.
  intros s ch period_ns duty_ns Hi [Hnone | (Hp & Hexact)];
    apply sunxi_pwm_set_config_none; try assumption.
  apply exact_ticks_none_usable; assumption.
Qed.

Lemma C2_set_config_no_prescaler_below_wrap_witness :
  sunxi_pwm_set_config 0 1000000000000 500000000000 state_ch0_running
  = Some (- EINVAL, state_ch0_running).
Proof.
  apply (C2_set_config_no_prescaler_below_wrap
           state_ch0_running 0 1000000000000 500000000000);
    try concrete_state.
  right; split; [lia|].
  unfold prescaler_table; cbn [In]; intros divisor Hin Hnz.
  repeat (destruct Hin as [<- | Hin];
          [first [ lia
                 | match goal with
                   | |- context [exact_ticks ?d ?q] =>
                     let v := eval vm_compute in (exact_ticks d q) in
                     change (exact_ticks d q) with v
                   end; lia ]|]).
  destruct Hin.
Defined.

(** C3. With the mapping not established ([sunxi_pwm_base_address] is 0),
    each of [sunxi_pwm_set_polarity], [sunxi_pwm_set_config],
    [sunxi_pwm_enable] and [sunxi_pwm_disable] returns [-EPERM], for every
    channel and argument value, and leaves the state unchanged; the bus log
    being part of the state, no register is read or written. *)
Theorem C3_not_initialized :
  forall NORMAL s ch pol period_ns duty_ns,
    sunxi_pwm_base_address s = 0 ->
    sunxi_pwm_set_polarity NORMAL ch pol s = Some (- EPERM, s) /\
    sunxi_pwm_set_config ch period_ns duty_ns s = Some (- EPERM, s) /\
    sunxi_pwm_enable ch s = Some (- EPERM, s) /\
    sunxi_pwm_disable ch s = Some (- EPERM, s).
Proof.
  intros NORMAL s ch pol period_ns duty_ns Hbase.
  unfold sunxi_pwm_set_polarity, sunxi_pwm_set_config, sunxi_pwm_enable,
    sunxi_pwm_disable.
  rewrite Hbase, Z.eqb_refl.
  repeat split.
Qed.

Lemma C3_not_initialized_witness :
  let s := mk_state 0 (mk_reg 0x50 7 9) [] in
  sunxi_pwm_set_polarity 0 5 1 s = Some (- EPERM, s) /\
  sunxi_pwm_set_config 5 20000000 1500000 s = Some (- EPERM, s) /\
  sunxi_pwm_enable 5 s = Some (- EPERM, s) /\
  sunxi_pwm_disable 5 s = Some (- EPERM, s).
Proof.
  exact (C3_not_initialized 0 (mk_state 0 (mk_reg 0x50 7 9) []) 5 1
           20000000 1500000 eq_refl).
Defined.

(** C4. For every initialized state and channel in {0,1}: after a
    successful [sunxi_pwm_set_config] the clock-gating bit of the channel
    has the value it had before the call. *)
Theorem C4_set_config_preserves_clk_gating :
  forall s ch period_ns duty_ns s',
    initialized s -> valid_regs s -> channel ch ->
    sunxi_pwm_set_config ch period_ns duty_ns s = Some (0, s') ->
    clk_gating_bit ch (ctrl (reg s')) = clk_gating_bit ch (ctrl (reg s)).
Proof.
  intros s ch period_ns duty_ns s' Hi (Hc & _) Hch Hrun.
  destruct (sunxi_pwm_set_config_success s ch period_ns duty_ns Hi Hch Hc s' Hrun)
    as (i & Hfirst & Hctrl & _).
  rewrite Hctrl; unfold clk_gating_bit.
  apply config_ctrl_gating; [exact Hch | apply Hfirst].
Qed.

Lemma C4_set_config_preserves_clk_gating_witness :
  clk_gating_bit 0 (ctrl (reg state_ch0_reconfigured))
  = clk_gating_bit 0 (ctrl (reg state_ch0_running)).
Proof.
  apply (C4_set_config_preserves_clk_gating state_ch0_running 0 20000000 1500000);
    try concrete_state.
  vm_compute; reflexivity.
Defined.

(** C5. For every initialized state, channel in {0,1} and polarity value:
    [sunxi_pwm_set_polarity] returns 0 and changes at most the active-state
    bit (bit [5 + 15 ch]) of the control register; every other bit of the
    control register and both period registers are as before the call.  The
    active-state bit ends set when [pol] is [SUNXI_PWM_POLARITY_NORMAL] and
    cleared otherwise. *)
Theorem C5_set_polarity_frame :
  forall NORMAL s ch pol,
    initialized s -> valid_regs s -> channel ch ->
    exists s',
      sunxi_pwm_set_polarity NORMAL ch pol s = Some (0, s') /\
      (forall i, i <> 5 + 15 * ch ->
                 Z.testbit (ctrl (reg s')) i = Z.testbit (ctrl (reg s)) i) /\
      act_state_bit ch (ctrl (reg s')) = (pol =? NORMAL) /\
      ch_period_0 (reg s') = ch_period_0 (reg s) /\
      ch_period_1 (reg s') = ch_period_1 (reg s) /\
      sunxi_pwm_base_address s' = sunxi_pwm_base_address s.
Proof.
  intros NORMAL s ch pol Hi (Hc & _) Hch.
  assert (Hk : 0 <= 5 + 15 * ch) by (destruct Hch; lia).
  eexists; split; [apply sunxi_pwm_set_polarity_run; assumption|].
  step_state; unfold act_state_bit.
  split; [|split; [|repeat split]].
  - intros i Hne.
    destruct (Z.lt_ge_cases i 0) as [Hneg|Hpos];
      [rewrite !Z.testbit_neg_r by assumption; reflexivity|].
    destruct (pol =? NORMAL);
      rewrite ?Z.lor_spec, ?Z.ldiff_spec, Z.pow2_bits_eqb by assumption;
      destruct (Z.eqb_spec (5 + 15 * ch) i); try lia; cbn [negb];
      auto using orb_false_r, andb_true_r.
  - destruct (pol =? NORMAL);
      rewrite ?Z.lor_spec, ?Z.ldiff_spec, Z.pow2_bits_true by assumption;
      cbn [negb]; auto using orb_true_r, andb_false_r.
Qed.

Lemma C5_set_polarity_frame_witness :
  exists s',
    sunxi_pwm_set_polarity 0 1 0 state_ch0_running = Some (0, s') /\
    (forall i, i <> 5 + 15 * 1 ->
               Z.testbit (ctrl (reg s')) i = Z.testbit (ctrl (reg state_ch0_running)) i) /\
    act_state_bit 1 (ctrl (reg s')) = (0 =? 0) /\
    ch_period_0 (reg s') = ch_period_0 (reg state_ch0_running) /\
    ch_period_1 (reg s') = ch_period_1 (reg state_ch0_running) /\
    sunxi_pwm_base_address s' = sunxi_pwm_base_address state_ch0_running.
Proof.
  apply (C5_set_polarity_frame 0 state_ch0_running 1 0); concrete_state.
Defined.

(** C6, as stated, fails: for [period_ns = 20000000] the tick count at
    divisor 120 is 4000 (200000 ticks per second over 20 ms), not 4000000;
    it passes the 16-bit test, so the search does not advance past index 0. *)
Lemma C6_counterexample :
  table_at 0 = Some 120 /\
  tick_count 20000000 0 = 4000 /\
  usable 20000000 0 = true /\
  ~ (tick_count 20000000 0 = 4000000 /\ usable 20000000 0 = false).
Proof.
  repeat split; try reflexivity.
  intros [H _]; vm_compute in H; discriminate.
Qed.

(** C6, amended. For every initialized state and channel in {0,1},
    [sunxi_pwm_set_config] with [period_ns = 20000000] and
    [duty_ns = 1500000] returns 0 and selects the smallest-index prescaler
    whose tick count passes the 16-bit test, which is index 0: at divisor
    120 the tick count is 4000.  The period register then holds 3999 in its
    upper half and the duty count 300 = 4000 * 1500000 / 20000000 (rounded
    down) in its lower half. *)
Theorem C6_servo_period_uses_first_prescaler :
  forall s ch,
    initialized s -> valid_regs s -> channel ch ->
    exists s',
      sunxi_pwm_set_config ch 20000000 1500000 s = Some (0, s') /\
      first_usable 20000000 0 /\
      tick_count 20000000 0 = 4000 /\
      prescaler_field ch (ctrl (reg s')) = 0 /\
      ch_period (reg s') ch = Some (3999 * 2 ^ 16 + 300) /\
      duty_ticks 4000 20000000 1500000 = 300 /\
      4000 * 1500000 / 20000000 = 300.
Proof.
  intros s ch Hi (Hc & _) Hch.
  assert (Hfirst : first_usable 20000000 0).
  { split; [lia|]. split; [reflexivity|]. intros j Hj; lia. }
  destruct (sunxi_pwm_set_config_found s ch 20000000 1500000 Hi Hch Hc 0 Hfirst)
    as (s' & Hrun & _ & Hctrl & Hper & _).
  exists s'.
  split; [exact Hrun|].
  split; [exact Hfirst|].
  split; [reflexivity|].
  split; [rewrite Hctrl; apply config_ctrl_prescaler; [exact Hch | lia]|].
  split; [rewrite Hper; reflexivity|].
  split; reflexivity.
Qed.

Lemma C6_servo_period_uses_first_prescaler_witness :
  exists s',
    sunxi_pwm_set_config 1 20000000 1500000 state_ch0_running = Some (0, s') /\
    first_usable 20000000 0 /\
    tick_count 20000000 0 = 4000 /\
    prescaler_field 1 (ctrl (reg s')) = 0 /\
    ch_period (reg s') 1 = Some (3999 * 2 ^ 16 + 300) /\
    duty_ticks 4000 20000000 1500000 = 300 /\
    4000 * 1500000 / 20000000 = 300.
Proof.
  apply (C6_servo_period_uses_first_prescaler state_ch0_running 1); concrete_state.
Defined.

(** C7. The register layout, for channel [ch] in {0,1}: [SUNXI_PWM_EN] is
    bit [4 + 15 ch], [SUNXI_PWM_ACT_STATE] bit [5 + 15 ch],
    [SUNXI_PWM_CLK_GATING] bit [6 + 15 ch], and [SUNXI_PWM_PRESCALAR] places
    a 4-bit selector at bit offset [15 ch] (the mask written with [0x0F]
    covers exactly those four bits); the word written to the channel's
    period register holds [period ticks - 1] in bits 31-16 and the duty
    ticks masked to 16 bits in bits 15-0.  [sunxi_pwm_set_config] does write
    that word: on every initialized state and for every period with a
    usable table entry it returns 0, the prescaler field of the channel
    holds the selected index, and the channel's period register has been
    written, once, with the word packed from the tick count of that index
    and the duty count derived from it. *)
Theorem C7_register_layout :
  forall ch,
    channel ch ->
    SUNXI_PWM_EN ch = Some (2 ^ (4 + 15 * ch)) /\
    SUNXI_PWM_ACT_STATE ch = Some (2 ^ (5 + 15 * ch)) /\
    SUNXI_PWM_CLK_GATING ch = Some (2 ^ (6 + 15 * ch)) /\
    SUNXI_PWM_PRESCALAR_int ch 0x0F = Some (Z.shiftl (Z.ones 4) (15 * ch)) /\
    (forall p, 0 <= p < 16 ->
       SUNXI_PWM_PRESCALAR_uint ch p = Some (Z.shiftl p (15 * ch)) /\
       prescaler_field ch (Z.shiftl p (15 * ch)) = p) /\
    (forall prd dty, 1 <= prd <= 65536 ->
       word32 (period_word prd dty) /\
       Z.shiftr (period_word prd dty) 16 = prd - 1 /\
       Z.land (period_word prd dty) 0xFFFF = Z.land dty 0xFFFF) /\
    (forall s period_ns duty_ns,
       initialized s -> valid_regs s ->
       (exists k, 0 <= k < 16 /\ usable period_ns k = true) ->
       exists i s' w before after,
         first_usable period_ns i /\
         sunxi_pwm_set_config ch period_ns duty_ns s = Some (0, s') /\
         prescaler_field ch (ctrl (reg s')) = i /\
         ch_period (reg s') ch = Some w /\
         w = period_word (tick_count period_ns i)
               (to_uint (duty_ticks (tick_count period_ns i) period_ns duty_ns)) /\
         w = (tick_count period_ns i - 1) * 2 ^ 16
             + duty_ticks (tick_count period_ns i) period_ns duty_ns mod 2 ^ 16 /\
         Z.shiftr w 16 = tick_count period_ns i - 1 /\
         Z.land w 0xFFFF =
           Z.land (duty_ticks (tick_count period_ns i) period_ns duty_ns) 0xFFFF /\
         bus s' = before ++ PeriodWrite ch w :: after ++ bus s /\
         (forall ch' v, ~ In (PeriodWrite ch' v) before) /\
         (forall ch' v, ~ In (PeriodWrite ch' v) after)) /\
    (forall s period_ns duty_ns s',
       initialized s -> valid_regs s ->
       sunxi_pwm_set_config ch period_ns duty_ns s = Some (0, s') ->
       exists prd dty,
         1 <= prd <= 65536 /\
         prd = tick_count period_ns (prescaler_field ch (ctrl (reg s'))) /\
         dty = to_uint (duty_ticks prd period_ns duty_ns) /\
         ch_period (reg s') ch = Some (period_word prd dty)).
Proof.
  intros ch Hch.
  assert (Hs : 0 <= 15 * ch) by (destruct Hch; lia).
  split; [apply SUNXI_PWM_EN_channel; exact Hch|].
  split; [apply SUNXI_PWM_ACT_STATE_channel; exact Hch|].
  split; [apply SUNXI_PWM_CLK_GATING_channel; exact Hch|].
  split; [apply SUNXI_PWM_PRESCALAR_int_channel; exact Hch|].
  split; [|split; [|split]].
  - intros p Hp; split; [apply SUNXI_PWM_PRESCALAR_uint_channel; assumption|].
    unfold prescaler_field.
    rewrite Z.shiftr_shiftl_l, Z.sub_diag, Z.shiftl_0_r by lia.
    rewrite low4; apply Z.mod_small; lia.
  - intros prd dty Hprd; apply period_word_fields; exact Hprd.
  - intros s period_ns duty_ns Hi (Hc & _) (k & Hk & Hu).
    destruct (usable_first period_ns k Hk Hu) as (i & Hfirst).
    destruct (first_usable_ticks period_ns i Hfirst) as (Ht & _).
    pose proof (sunxi_pwm_set_config_effect s ch period_ns duty_ns Hi Hch Hc i Hfirst)
      as Hrun; cbv zeta in Hrun.
    set (t := tick_count period_ns i) in *.
    set (dt := duty_ticks t period_ns duty_ns) in *.
    destruct (period_word_fields t (to_uint dt) Ht) as (_ & Hhigh & Hlow).
    exists i; eexists; exists (period_word t (to_uint dt)).
    exists (gate_restore ch i (ctrl (reg s))).
    exists [CtrlWrite (Z.lor (Z.ldiff (Z.ldiff (ctrl (reg s)) (2 ^ (6 + 15 * ch)))
                                      (Z.shiftl (Z.ones 4) (15 * ch)))
                             (Z.shiftl i (15 * ch)));
            CtrlRead;
            CtrlWrite (Z.ldiff (Z.ldiff (ctrl (reg s)) (2 ^ (6 + 15 * ch)))
                               (Z.shiftl (Z.ones 4) (15 * ch)));
            CtrlRead;
            CtrlWrite (Z.ldiff (ctrl (reg s)) (2 ^ (6 + 15 * ch)));
            CtrlRead; CtrlRead].
    split; [exact Hfirst|].
    split; [exact Hrun|].
    step_state.
    split; [apply config_ctrl_prescaler; [exact Hch | apply Hfirst]|].
    split; [destruct Hch as [-> | ->]; reflexivity|].
    split; [reflexivity|].
    split.
    { rewrite (period_word_value t (to_uint dt) Ht).
      rewrite <- !low16, low16_to_uint; reflexivity. }
    split; [exact Hhigh|].
    split; [rewrite Hlow; apply low16_to_uint|].
    split; [reflexivity|].
    split.
    + intros ch' v Hin; unfold gate_restore in Hin.
      destruct (Z.land _ _ =? 0); cbn [In] in Hin;
        repeat (destruct Hin as [Hin | Hin]; [discriminate|]); exact Hin.
    + intros ch' v Hin; cbn [In] in Hin;
        repeat (destruct Hin as [Hin | Hin]; [discriminate|]); exact Hin.
  - intros s period_ns duty_ns s' Hi (Hc & _) Hrun.
    destruct (sunxi_pwm_set_config_success s ch period_ns duty_ns Hi Hch Hc s' Hrun)
      as (i & Hfirst & Hctrl & Hper & _).
    assert (Hfield : prescaler_field ch (ctrl (reg s')) = i)
      by (rewrite Hctrl; apply config_ctrl_prescaler; [exact Hch | apply Hfirst]).
    rewrite Hfield.
    exists (tick_count period_ns i); eexists.
    split; [apply (first_usable_ticks period_ns i Hfirst)|].
    split; [reflexivity|].
    split; [reflexivity | exact Hper].
Qed.

(** The layout on both channels, with a 50 Hz configuration written on
    each: the period word is [3999 * 2^16 + 300]. *)
Lemma C7_register_layout_witness :
  (SUNXI_PWM_EN 0 = Some (2 ^ 4) /\
   SUNXI_PWM_ACT_STATE 0 = Some (2 ^ 5) /\
   SUNXI_PWM_CLK_GATING 0 = Some (2 ^ 6) /\
   SUNXI_PWM_PRESCALAR_int 0 0x0F = Some 0x0F /\
   exists s' before after,
     sunxi_pwm_set_config 0 20000000 1500000 state_ch0_running = Some (0, s') /\
     prescaler_field 0 (ctrl (reg s')) = 0 /\
     ch_period (reg s') 0 = Some (3999 * 2 ^ 16 + 300) /\
     bus s' = before ++ PeriodWrite 0 (3999 * 2 ^ 16 + 300)
                     :: after ++ bus state_ch0_running) /\
  (SUNXI_PWM_EN 1 = Some (2 ^ 19) /\
   SUNXI_PWM_ACT_STATE 1 = Some (2 ^ 20) /\
   SUNXI_PWM_CLK_GATING 1 = Some (2 ^ 21) /\
   SUNXI_PWM_PRESCALAR_int 1 0x0F = Some (0x0F * 2 ^ 15) /\
   exists s' before after,
     sunxi_pwm_set_config 1 20000000 1500000 state_ch0_running = Some (0, s') /\
     prescaler_field 1 (ctrl (reg s')) = 0 /\
     ch_period (reg s') 1 = Some (3999 * 2 ^ 16 + 300) /\
     bus s' = before ++ PeriodWrite 1 (3999 * 2 ^ 16 + 300)
                     :: after ++ bus state_ch0_running).
Proof.
  assert (Hfirst0 : forall i, first_usable 20000000 i -> i = 0).
  { intros i (Hi & Hu & Hmin).
    destruct (Z.eq_dec i 0) as [|Hne]; [assumption|].
    assert (H0 : usable 20000000 0 = false) by (apply Hmin; lia).
    vm_compute in H0; discriminate. }
  split.
  - destruct (C7_register_layout 0 ltac:(concrete_state))
      as (Hen & Hact & Hgate & Hpre & _ & _ & Hcall & _).
    destruct (Hcall state_ch0_running 20000000 1500000
                ltac:(concrete_state) ltac:(concrete_state)
                ltac:(exists 0; split; [lia | reflexivity]))
      as (i & s' & w & before & after & Hfirst & Hrun & Hfield & Hper & Hw & _
          & _ & _ & Hbus & _).
    generalize (Hfirst0 i Hfirst); intros ->.
    assert (Hw' : w = 3999 * 2 ^ 16 + 300) by (rewrite Hw; vm_compute; reflexivity).
    subst w.
    repeat (split; [assumption|]).
    exists s', before, after.
    repeat (split; [assumption|]); assumption.
  - destruct (C7_register_layout 1 ltac:(concrete_state))
      as (Hen & Hact & Hgate & Hpre & _ & _ & Hcall & _).
    destruct (Hcall state_ch0_running 20000000 1500000
                ltac:(concrete_state) ltac:(concrete_state)
                ltac:(exists 0; split; [lia | reflexivity]))
      as (i & s' & w & before & after & Hfirst & Hrun & Hfield & Hper & Hw & _
          & _ & _ & Hbus & _).
    generalize (Hfirst0 i Hfirst); intros ->.
    assert (Hw' : w = 3999 * 2 ^ 16 + 300) by (rewrite Hw; vm_compute; reflexivity).
    subst w.
    repeat (split; [assumption|]).
    exists s', before, after.
    repeat (split; [assumption|]); assumption.
Defined.




(** C9, as stated, fails: for [period_ns = 2^63] at divisor 120 the product
    [200000 * period_ns] wraps modulo [2^64] to 0, so the computed tick
    count is 0 while the exact value is 1844674407370955. *)
Lemma C9_counterexample :
  word64 9223372036854775808 /\
  In 120 prescaler_table /\
  ticks 120 9223372036854775808 = 0 /\
  exact_ticks 120 9223372036854775808 = 1844674407370955 /\
  ticks 120 9223372036854775808 <> exact_ticks 120 9223372036854775808.
Proof.
  split; [unfold word64; lia|].
  split; [left; reflexivity|].
  split; [reflexivity|].
  split; [reflexivity|].
  vm_compute; discriminate.
Qed.

(** C9, amended. For every non-zero divisor of the prescaler table and every
    [period_ns] whose product with [24000000 / divisor] is below [2^64] (in
    particular every [period_ns] up to 92233720368547 ns, about 25.6 hours),
    the tick count [sunxi_pwm_set_config] computes in unsigned 64-bit
    arithmetic equals the exact value
    [period_ns * (24000000 / divisor) / 1000000000]. *)
Theorem C9_ticks_exact_below_wrap :
  forall divisor period_ns,
    In divisor prescaler_table -> divisor <> 0 ->
    0 <= period_ns ->
    (period_ns * (24000000 / divisor) < 2 ^ 64 \/ period_ns <= 92233720368547) ->
    ticks divisor period_ns = exact_ticks divisor period_ns.
Proof.
  intros divisor period_ns Hin Hnz Hp Hsmall.
  pose proof (clock_rate_bounds divisor (table_entry_bounds divisor Hin Hnz)) as Hx.
  unfold ticks, exact_ticks; cbv zeta.
  rewrite (Z.mul_comm (24000000 / divisor) period_ns).
  rewrite to_u64_small; [reflexivity|].
  unfold word64; split; [nia|].
  destruct Hsmall as [Hlt | Hle]; [exact Hlt | nia].
Qed.

Lemma C9_ticks_exact_below_wrap_witness :
  ticks 72000 92233720368547 = exact_ticks 72000 92233720368547.
Proof.
  apply (C9_ticks_exact_below_wrap 72000 92233720368547).
  - unfold prescaler_table; cbn [In]; do 12 right; left; reflexivity.
  - lia.
  - lia.
  - right; lia.
Defined.

(** C10. For every initialized state and channel in {0,1}: if [period_ns] is
    so small that every non-zero entry of the prescaler table yields a tick
    count of 0 (which is the case for [period_ns = 0] and for every
    [period_ns < 5000]), [sunxi_pwm_set_config] returns [-EINVAL] with the
    state unchanged, before the duty computation.  The division by
    [period_ns] is therefore never executed with [period_ns = 0]: the call
    with [period_ns = 0] has the defined result [-EINVAL], and a call that
    gets as far as returning 0 has a non-zero [period_ns]. *)
Theorem C10_short_period_rejected :
  forall s ch period_ns duty_ns,
    initialized s -> valid_regs s -> channel ch -> word64 period_ns ->
    ((forall i, 0 <= i < 16 -> tick_count period_ns i = 0) \/ period_ns < 5000) ->
    sunxi_pwm_set_config ch period_ns duty_ns s = Some (- EINVAL, s) /\
    (forall i, 0 <= i < 16 -> tick_count period_ns i = 0) /\
    sunxi_pwm_set_config ch 0 duty_ns s = Some (- EINVAL, s) /\
    (forall p d s', sunxi_pwm_set_config ch p d s = Some (0, s') -> p <> 0).
Proof.
  intros s ch period_ns duty_ns Hi Hv Hch Hp Hshort.
  assert (Hzero : forall i, 0 <= i < 16 -> tick_count period_ns i = 0).
  { destruct Hshort as [Hz | Hlt]; [exact Hz|].
    intros i _; apply short_period_tick_count; unfold word64 in Hp; lia. }
  split; [apply sunxi_pwm_set_config_none;
          [exact Hi | apply zero_ticks_none_usable; exact Hzero]|].
  split; [exact Hzero|].
  split.
  - apply sunxi_pwm_set_config_none; [exact Hi|].
    apply zero_ticks_none_usable.
    intros i _; apply short_period_tick_count; lia.
  - intros p d s' Hrun.
    destruct (sunxi_pwm_set_config_defined s ch p d Hi Hch (proj1 Hv))
      as (r & s'' & Hrun' & _ & Hnz & _).
    rewrite Hrun in Hrun'; injection Hrun' as <- <-.
    apply Hnz; reflexivity.
Qed.

Lemma C10_short_period_rejected_witness :
  sunxi_pwm_set_config 0 4999 2500 state_ch0_running
    = Some (- EINVAL, state_ch0_running) /\
  (forall i, 0 <= i < 16 -> tick_count 4999 i = 0) /\
  sunxi_pwm_set_config 0 0 2500 state_ch0_running
    = Some (- EINVAL, state_ch0_running) /\
  (forall p d s',
     sunxi_pwm_set_config 0 p d state_ch0_running = Some (0, s') -> p <> 0).
Proof.
  apply (C10_short_period_rejected state_ch0_running 0 4999 2500);
    concrete_state.
Defined.

(** * Further properties of the register interface *)

Lemma nibble_mask_bits j : 0 <= j -> Z.testbit 0x0F j = (j <? 4).
Proof.
  intros Hj; change 0x0F with (Z.ones 4).
  destruct (Z.ltb_spec j 4);
    [apply Z.ones_spec_low | apply Z.ones_spec_high]; lia.
Qed.

Lemma config_ctrl_idempotent ch p c :
  channel ch -> 0 <= p < 16 ->
  config_ctrl ch p (config_ctrl ch p c) = config_ctrl ch p c.
Proof.
  intros Hch Hp.
  apply Z.bits_inj'; intros i Hi.
  rewrite !config_ctrl_testbit by assumption.
  destruct (i =? 6 + 15 * ch);
    [|destruct ((15 * ch <=? i) && (i <? 15 * ch + 4))];
    destruct (Z.testbit c i), (Z.testbit p (i - 15 * ch)); reflexivity.
Qed.

(** X1. A successful [sunxi_pwm_set_config] on channel [ch] changes, in the
    control register, at most the four bits of that channel's prescaler
    field; the enable, polarity and clock-gating bits of both channels and
    the prescaler field of the other channel are as before, and so are the
    other channel's period register and [sunxi_pwm_base_address]. *)
Theorem X1_set_config_frame :
  forall s ch period_ns duty_ns s',
    initialized s -> valid_regs s -> channel ch ->
    sunxi_pwm_set_config ch period_ns duty_ns s = Some (0, s') ->
    (forall i, ~ (15 * ch <= i < 15 * ch + 4) ->
               Z.testbit (ctrl (reg s')) i = Z.testbit (ctrl (reg s)) i) /\
    (forall ch', channel ch' ->
       en_bit ch' (ctrl (reg s')) = en_bit ch' (ctrl (reg s)) /\
       act_state_bit ch' (ctrl (reg s')) = act_state_bit ch' (ctrl (reg s)) /\
       clk_gating_bit ch' (ctrl (reg s')) = clk_gating_bit ch' (ctrl (reg s))) /\
    prescaler_field (1 - ch) (ctrl (reg s')) = prescaler_field (1 - ch) (ctrl (reg s)) /\
    ch_period (reg s') (1 - ch) = ch_period (reg s) (1 - ch) /\
    sunxi_pwm_base_address s' = sunxi_pwm_base_address s.
Proof.
  intros s ch period_ns duty_ns s' Hi (Hc & _) Hch Hrun.
  destruct (sunxi_pwm_set_config_success_effect s ch period_ns duty_ns s' Hi Hch Hc Hrun)
    as (i & Hfirst & Hs').
  cbv zeta in Hs'; subst s'; step_state.
  assert (Hp : 0 <= i < 16) by apply Hfirst.
  assert (Hframe : forall j, ~ (15 * ch <= j < 15 * ch + 4) ->
            Z.testbit (config_ctrl ch i (ctrl (reg s))) j = Z.testbit (ctrl (reg s)) j).
  { intros j Hout.
    destruct (Z.lt_ge_cases j 0);
      [rewrite !Z.testbit_neg_r by assumption; reflexivity|].
    apply config_ctrl_frame; assumption. }
  split; [exact Hframe|].
  split.
  { intros ch' Hch'; unfold en_bit, act_state_bit, clk_gating_bit.
    repeat split; apply Hframe; destruct Hch as [-> | ->], Hch' as [-> | ->]; lia. }
  split.
  { unfold prescaler_field.
    apply Z.bits_inj'; intros j Hj.
    assert (Hs : 0 <= 15 * (1 - ch)) by (destruct Hch; lia).
    rewrite !Z.land_spec, !Z.shiftr_spec, !nibble_mask_bits by assumption.
    destruct (Z.ltb_spec j 4).
    - rewrite Hframe by (destruct Hch as [-> | ->]; lia); reflexivity.
    - rewrite !andb_false_r; reflexivity. }
  split; [|reflexivity].
  destruct Hch as [-> | ->]; reflexivity.
Qed.

Lemma X1_set_config_frame_witness :
  (forall i, ~ (15 * 0 <= i < 15 * 0 + 4) ->
             Z.testbit (ctrl (reg state_ch0_reconfigured)) i
             = Z.testbit (ctrl (reg state_ch0_running)) i) /\
  (forall ch', channel ch' ->
     en_bit ch' (ctrl (reg state_ch0_reconfigured))
       = en_bit ch' (ctrl (reg state_ch0_running)) /\
     act_state_bit ch' (ctrl (reg state_ch0_reconfigured))
       = act_state_bit ch' (ctrl (reg state_ch0_running)) /\
     clk_gating_bit ch' (ctrl (reg state_ch0_reconfigured))
       = clk_gating_bit ch' (ctrl (reg state_ch0_running))) /\
  prescaler_field (1 - 0) (ctrl (reg state_ch0_reconfigured))
    = prescaler_field (1 - 0) (ctrl (reg state_ch0_running)) /\
  ch_period (reg state_ch0_reconfigured) (1 - 0)
    = ch_period (reg state_ch0_running) (1 - 0) /\
  sunxi_pwm_base_address state_ch0_reconfigured
    = sunxi_pwm_base_address state_ch0_running.
Proof.
  apply (X1_set_config_frame state_ch0_running 0 20000000 1500000);
    try concrete_state.
  vm_compute; reflexivity.
Defined.

(** X2. [sunxi_pwm_set_config] is idempotent on the registers: after a
    successful call, the same call again succeeds and leaves the control
    register and both period registers exactly as the first call left
    them. *)
Theorem X2_set_config_idempotent :
  forall s ch period_ns duty_ns s1,
    initialized s -> valid_regs s -> channel ch ->
    sunxi_pwm_set_config ch period_ns duty_ns s = Some (0, s1) ->
    exists s2,
      sunxi_pwm_set_config ch period_ns duty_ns s1 = Some (0, s2) /\
      reg s2 = reg s1.
Proof.
  intros s ch period_ns duty_ns s1 Hi (Hc & _) Hch Hrun.
  destruct (sunxi_pwm_set_config_success_effect s ch period_ns duty_ns s1 Hi Hch Hc Hrun)
    as (i & Hfirst & Hs1).
  cbv zeta in Hs1.
  assert (Hp : 0 <= i < 16) by apply Hfirst.
  assert (Hi1 : initialized s1) by (subst s1; exact Hi).
  assert (Hc1 : word32 (ctrl (reg s1)))
    by (subst s1; step_state; apply config_ctrl_word32; assumption).
  eexists; split;
    [apply (sunxi_pwm_set_config_effect s1 ch period_ns duty_ns Hi1 Hch Hc1 i Hfirst)|].
  cbv zeta; subst s1; step_state.
  rewrite config_ctrl_idempotent by assumption.
  destruct Hch as [-> | ->]; reflexivity.
Qed.

Lemma X2_set_config_idempotent_witness :
  exists s2,
    sunxi_pwm_set_config 0 20000000 1500000 state_ch0_reconfigured = Some (0, s2) /\
    reg s2 = reg state_ch0_reconfigured.
Proof.
  apply (X2_set_config_idempotent state_ch0_running 0 20000000 1500000);
    try concrete_state.
  vm_compute; reflexivity.
Defined.



Lemma result_inj {A} (r r' : A) (s s' : pwm_state) :
  Some (r, s) = Some (r', s') -> r = r' /\ s = s'.
Proof. intros H; injection H as -> ->; split; reflexivity. Qed.

(** X4. On an initialized state whose registers are 32-bit words, and for a
    channel in {0,1}, whatever [sunxi_pwm_set_polarity],
    [sunxi_pwm_set_config], [sunxi_pwm_enable] and [sunxi_pwm_disable]
    return, the state they leave is again initialized with the same
    [sunxi_pwm_base_address], and its three registers are again 32-bit
    words: the operations can be chained in any order. *)
Theorem X4_operations_keep_state_valid :
  forall NORMAL s ch pol period_ns duty_ns,
    initialized s -> valid_regs s -> channel ch ->
    (forall r s', sunxi_pwm_set_polarity NORMAL ch pol s = Some (r, s') -> kept s s') /\
    (forall r s', sunxi_pwm_set_config ch period_ns duty_ns s = Some (r, s') -> kept s s') /\
    (forall r s', sunxi_pwm_enable ch s = Some (r, s') -> kept s s') /\
    (forall r s', sunxi_pwm_disable ch s = Some (r, s') -> kept s s').
Proof.
  intros NORMAL s ch pol period_ns duty_ns Hi Hv Hch.
  pose proof Hv as (Hc & Hp0 & Hp1).
  split; [|split; [|split]]; intros r s' Hrun.
  - rewrite sunxi_pwm_set_polarity_run in Hrun by assumption.
    apply result_inj in Hrun as [_ <-].
    unfold kept, initialized, valid_regs; step_state.
    split; [exact Hi|]. split; [|reflexivity].
    split; [|split; assumption].
    destruct (pol =? NORMAL); auto with word32.
  - destruct (sunxi_pwm_set_config_defined s ch period_ns duty_ns Hi Hch Hc)
      as (r' & s'' & Hrun' & Hr & _ & Hsame).
    rewrite Hrun in Hrun'; injection Hrun' as <- <-.
    destruct Hr as [-> | ->].
    + destruct (sunxi_pwm_set_config_success_effect s ch period_ns duty_ns s'
                  Hi Hch Hc Hrun) as (i & Hfirst & Hs').
      cbv zeta in Hs'; subst s'.
      unfold kept, initialized, valid_regs; step_state.
      split; [exact Hi|]. split; [|reflexivity].
      split; [apply config_ctrl_word32; [exact Hch | apply Hfirst | exact Hc]|].
      destruct (ch =? 0); split; try assumption; apply to_uint_range.
    + rewrite (Hsame eq_refl).
      split; [exact Hi|]. split; [exact Hv | reflexivity].
  - rewrite sunxi_pwm_enable_run in Hrun by assumption.
    apply result_inj in Hrun as [_ <-].
    unfold kept, initialized, valid_regs; step_state.
    split; [exact Hi|]. split; [|reflexivity].
    split; [auto with word32 | split; assumption].
  - rewrite sunxi_pwm_disable_run in Hrun by assumption.
    apply result_inj in Hrun as [_ <-].
    unfold kept, initialized, valid_regs; step_state.
    split; [exact Hi|]. split; [|reflexivity].
    split; [auto with word32 | split; assumption].
Qed.

Lemma X4_operations_keep_state_valid_witness :
  (forall r s', sunxi_pwm_set_polarity 0 1 0 state_ch0_running = Some (r, s') ->
                kept state_ch0_running s') /\
  (forall r s', sunxi_pwm_set_config 1 20000000 1500000 state_ch0_running = Some (r, s') ->
                kept state_ch0_running s') /\
  (forall r s', sunxi_pwm_enable 1 state_ch0_running = Some (r, s') ->
                kept state_ch0_running s') /\
  (forall r s', sunxi_pwm_disable 1 state_ch0_running = Some (r, s') ->
                kept state_ch0_running s').
Proof.
  apply (X4_operations_keep_state_valid 0 state_ch0_running 1 0 20000000 1500000);
    concrete_state.
Defined.

(** ** The periods [sunxi_pwm_set_config] accepts *)

(** X5. The range of periods [sunxi_pwm_set_config] accepts.  For every
    [period_ns] up to 92233720368547 (below the wrap of the 64-bit product)
    on an initialized state and a channel in {0,1}: the call returns 0 when
    [5000 <= period_ns <= 196807807807] (5 microseconds to about 196.8
    seconds, with no gap between the prescalers), and returns [-EINVAL] with
    the state unchanged for every other period. *)
Theorem X5_accepted_periods :
  forall s ch period_ns duty_ns,
    initialized s -> valid_regs s -> channel ch ->
    0 <= period_ns <= 92233720368547 ->
    (5000 <= period_ns <= 196807807807 ->
     exists s', sunxi_pwm_set_config ch period_ns duty_ns s = Some (0, s')) /\
    (~ (5000 <= period_ns <= 196807807807) ->
     sunxi_pwm_set_config ch period_ns duty_ns s = Some (- EINVAL, s)).
Proof.
  intros s ch period_ns duty_ns Hi (Hc & _) Hch Hp.
  split.
  - intros Hin.
    assert (Hex : exists k, 0 <= k < 16 /\ usable period_ns k = true).
    { destruct (Z.lt_ge_cases period_ns 327685000);
        [exists 0; split; [lia|];
         apply (proj2 (usable_bounds 0 120 period_ns eq_refl ltac:(lia) Hp));
         change (24000000 / 120) with 200000; lia|].
      destruct (Z.lt_ge_cases period_ns 1310740000);
        [exists 4; split; [lia|];
         apply (proj2 (usable_bounds 4 480 period_ns eq_refl ltac:(lia) Hp));
         change (24000000 / 480) with 50000; lia|].
      destruct (Z.lt_ge_cases period_ns 32768500000);
        [exists 8; split; [lia|];
         apply (proj2 (usable_bounds 8 12000 period_ns eq_refl ltac:(lia) Hp));
         change (24000000 / 12000) with 2000; lia|].
      destruct (Z.lt_ge_cases period_ns 65537000000);
        [exists 9; split; [lia|];
         apply (proj2 (usable_bounds 9 24000 period_ns eq_refl ltac:(lia) Hp));
         change (24000000 / 24000) with 1000; lia|].
      destruct (Z.lt_ge_cases period_ns 131074000000);
        [exists 11; split; [lia|];
         apply (proj2 (usable_bounds 11 48000 period_ns eq_refl ltac:(lia) Hp));
         change (24000000 / 48000) with 500; lia|].
      exists 12; split; [lia|].
      apply (proj2 (usable_bounds 12 72000 period_ns eq_refl ltac:(lia) Hp)).
      change (24000000 / 72000) with 333; lia. }
    destruct Hex as (k & Hk & Hu).
    destruct (usable_first period_ns k Hk Hu) as (i & Hfirst).
    eexists.
    apply (sunxi_pwm_set_config_effect s ch period_ns duty_ns Hi Hch Hc i Hfirst).
  - intros Hout.
    apply sunxi_pwm_set_config_none; [exact Hi|].
    intros j Hj.
    destruct (usable period_ns j) eqn:Hu; [exfalso | reflexivity].
    destruct (usable_entry period_ns j Hu) as (divisor & Hat & Hd).
    pose proof (proj1 (usable_bounds j divisor period_ns Hat ltac:(lia) Hp) Hu) as Hb.
    pose proof (clock_rate_bounds divisor Hd) as Hx.
    pose proof (clock_rate_lower divisor Hd) as Hx'.
    nia.
Qed.

Lemma X5_accepted_periods_witness :
  (5000 <= 196807807807 <= 196807807807 ->
   exists s', sunxi_pwm_set_config 1 196807807807 1500000 state_at_reset = Some (0, s')) /\
  (~ (5000 <= 196807807807 <= 196807807807) ->
   sunxi_pwm_set_config 1 196807807807 1500000 state_at_reset
   = Some (- EINVAL, state_at_reset)).
Proof.
  apply (X5_accepted_periods state_at_reset 1 196807807807 1500000);
    concrete_state.
Defined.

(** X6. The duty count never exceeds the period count.  After a successful
    [sunxi_pwm_set_config] with [duty_ns <= period_ns], the period register
    holds [t - 1] in its upper half for a tick count [t] between 1 and
    65536, and its lower half holds the low 16 bits of a duty count [dt]
    with [0 <= dt <= t], which is 0 when [duty_ns] is 0.  The duty count is
    stored unchanged whenever it is below 65536; the one remaining case, a
    duty count of 65536 (a full duty cycle at the largest tick count), is
    stored as 0. *)
Theorem X6_duty_count_within_period :
  forall s ch period_ns duty_ns s',
    initialized s -> valid_regs s -> channel ch ->
    0 <= duty_ns <= period_ns ->
    sunxi_pwm_set_config ch period_ns duty_ns s = Some (0, s') ->
    exists t dt w,
      ch_period (reg s') ch = Some w /\
      1 <= t <= 65536 /\
      dt = duty_ticks t period_ns duty_ns /\
      0 <= dt <= t /\
      (duty_ns = 0 -> dt = 0) /\
      Z.shiftr w 16 = t - 1 /\
      (dt < 65536 -> Z.land w 0xFFFF = dt) /\
      (dt = 65536 -> Z.land w 0xFFFF = 0).
Proof.
  intros s ch period_ns duty_ns s' Hi (Hc & _) Hch Hd Hrun.
  destruct (sunxi_pwm_set_config_success s ch period_ns duty_ns Hi Hch Hc s' Hrun)
    as (i & Hfirst & _ & Hper & _).
  destruct (first_usable_ticks period_ns i Hfirst) as (Ht & Hnz).
  set (t := tick_count period_ns i) in *.
  destruct (period_word_fields t (to_uint (duty_ticks t period_ns duty_ns)) Ht)
    as (_ & Hhigh & Hlow).
  rewrite low16_to_uint, (low16 (duty_ticks t period_ns duty_ns)) in Hlow.
  assert (Hdt : 0 <= duty_ticks t period_ns duty_ns <= t).
  { unfold duty_ticks, to_u64.
    pose proof (Z.mod_pos_bound (t * duty_ns) (2 ^ 64) ltac:(lia)) as Hm.
    pose proof (Z.mod_le (t * duty_ns) (2 ^ 64) ltac:(nia) ltac:(lia)) as Hle.
    split; [apply Z.div_pos; lia|].
    apply Z.div_le_upper_bound; [lia|nia]. }
  exists t, (duty_ticks t period_ns duty_ns); eexists.
  split; [exact Hper|].
  split; [exact Ht|].
  split; [reflexivity|].
  split; [exact Hdt|].
  split.
  { intros ->; unfold duty_ticks; rewrite Z.mul_0_r; reflexivity. }
  split; [exact Hhigh|].
  split; intros Hcase; rewrite Hlow.
  - apply Z.mod_small; lia.
  - rewrite Hcase; reflexivity.
Qed.

Lemma X6_duty_count_within_period_witness :
  exists t dt w,
    ch_period (reg state_ch0_reconfigured) 0 = Some w /\
    1 <= t <= 65536 /\
    dt = duty_ticks t 20000000 1500000 /\
    0 <= dt <= t /\
    (1500000 = 0 -> dt = 0) /\
    Z.shiftr w 16 = t - 1 /\
    (dt < 65536 -> Z.land w 0xFFFF = dt) /\
    (dt = 65536 -> Z.land w 0xFFFF = 0).
Proof.
  apply (X6_duty_count_within_period state_ch0_running 0 20000000 1500000);
    try concrete_state.
  vm_compute; reflexivity.
Defined.

(** ** Composing enable, disable and polarity *)

Lemma sunxi_pwm_enable_update ch :
  channel ch -> ctrl_update (sunxi_pwm_enable ch) (ctrl_enabled ch).
Proof.
  intros Hch s Hi Hc; unfold ctrl_enabled.
  split; [auto with word32|].
  eexists; apply sunxi_pwm_enable_run; assumption.
Qed.

Lemma sunxi_pwm_disable_update ch :
  channel ch -> ctrl_update (sunxi_pwm_disable ch) (ctrl_disabled ch).
Proof.
  intros Hch s Hi Hc; unfold ctrl_disabled.
  split; [auto with word32|].
  eexists; apply sunxi_pwm_disable_run; assumption.
Qed.

Lemma sunxi_pwm_set_polarity_update NORMAL ch pol :
  channel ch ->
  ctrl_update (sunxi_pwm_set_polarity NORMAL ch pol) (ctrl_polarized NORMAL ch pol).
Proof.
  intros Hch s Hi Hc; unfold ctrl_polarized.
  split; [destruct (pol =? NORMAL); auto with word32|].
  eexists; apply sunxi_pwm_set_polarity_run; assumption.
Qed.

Lemma regs_of_update m f s :
  ctrl_update m f -> initialized s -> word32 (ctrl (reg s)) ->
  regs_of m s =
  Some (mk_reg (f (ctrl (reg s))) (ch_period_0 (reg s)) (ch_period_1 (reg s))).
Proof.
  intros Hm Hi Hc.
  destruct (Hm s Hi Hc) as (_ & log & Hrun).
  unfold regs_of; rewrite Hrun; reflexivity.
Qed.

Lemma regs_after_updates m1 m2 f1 f2 s :
  ctrl_update m1 f1 -> ctrl_update m2 f2 ->
  initialized s -> word32 (ctrl (reg s)) ->
  regs_after m1 m2 s =
  Some (mk_reg (f2 (f1 (ctrl (reg s)))) (ch_period_0 (reg s)) (ch_period_1 (reg s))).
Proof.
  intros Hm1 Hm2 Hi Hc.
  destruct (Hm1 s Hi Hc) as (Hc1 & log1 & Hrun1).
  unfold regs_after; rewrite Hrun1.
  match goal with
  | |- context [m2 ?s1] =>
    destruct (Hm2 s1 Hi Hc1) as (_ & log2 & Hrun2); rewrite Hrun2
  end.
  reflexivity.
Qed.

Lemma same_ctrl c c' p0 p1 :
  c = c' -> Some (mk_reg c p0 p1) = Some (mk_reg c' p0 p1).
Proof. intros ->; reflexivity. Qed.

(** Equality of control words built from single-bit updates, bit by bit. *)
Ltac bit_by_bit :=
  apply Z.bits_inj'; intros ?i ?Hi;
  repeat first [rewrite Z.lor_spec | rewrite Z.ldiff_spec];
  rewrite ?Z.pow2_bits_eqb by lia;
  repeat match goal with
         | |- context [?a =? ?b] => destruct (Z.eqb_spec a b)
         end;
  try (exfalso; lia);
  repeat match goal with
         | |- context [Z.testbit ?c ?j] => destruct (Z.testbit c j)
         end;
  reflexivity.

(** X7. On one channel, [sunxi_pwm_enable] and [sunxi_pwm_disable] are
    idempotent and the later call decides: the registers after two of these
    calls on the same channel, in any of the four combinations, are the
    registers the second call alone would leave. *)
Theorem X7_enable_disable_last_call_decides :
  forall s ch,
    initialized s -> valid_regs s -> channel ch ->
    regs_after (sunxi_pwm_enable ch) (sunxi_pwm_enable ch) s
      = regs_of (sunxi_pwm_enable ch) s /\
    regs_after (sunxi_pwm_disable ch) (sunxi_pwm_enable ch) s
      = regs_of (sunxi_pwm_enable ch) s /\
    regs_after (sunxi_pwm_disable ch) (sunxi_pwm_disable ch) s
      = regs_of (sunxi_pwm_disable ch) s /\
    regs_after (sunxi_pwm_enable ch) (sunxi_pwm_disable ch) s
      = regs_of (sunxi_pwm_disable ch) s /\
    regs_of (sunxi_pwm_enable ch) s <> None /\
    regs_of (sunxi_pwm_disable ch) s <> None.
Proof.
  intros s ch Hi (Hc & _) Hch.
  assert (Hs : 0 <= 15 * ch) by (destruct Hch; lia).
  pose proof (sunxi_pwm_enable_update ch Hch) as Hen.
  pose proof (sunxi_pwm_disable_update ch Hch) as Hdis.
  rewrite !(regs_after_updates _ _ _ _ s) by eassumption.
  rewrite (regs_of_update _ _ s Hen Hi Hc), (regs_of_update _ _ s Hdis Hi Hc).
  unfold ctrl_enabled, ctrl_disabled.
  repeat split; try discriminate; apply same_ctrl; bit_by_bit.
Qed.

Lemma X7_enable_disable_last_call_decides_witness :
  regs_after (sunxi_pwm_enable 1) (sunxi_pwm_enable 1) state_ch0_running
    = regs_of (sunxi_pwm_enable 1) state_ch0_running /\
  regs_after (sunxi_pwm_disable 1) (sunxi_pwm_enable 1) state_ch0_running
    = regs_of (sunxi_pwm_enable 1) state_ch0_running /\
  regs_after (sunxi_pwm_disable 1) (sunxi_pwm_disable 1) state_ch0_running
    = regs_of (sunxi_pwm_disable 1) state_ch0_running /\
  regs_after (sunxi_pwm_enable 1) (sunxi_pwm_disable 1) state_ch0_running
    = regs_of (sunxi_pwm_disable 1) state_ch0_running /\
  regs_of (sunxi_pwm_enable 1) state_ch0_running <> None /\
  regs_of (sunxi_pwm_disable 1) state_ch0_running <> None.
Proof.
  apply (X7_enable_disable_last_call_decides state_ch0_running 1); concrete_state.
Defined.

(** X8. [sunxi_pwm_set_polarity] overwrites: the registers after two calls
    on the same channel are the registers the second call alone would
    leave, whatever the two polarity values; in particular the call is
    idempotent. *)
Theorem X8_set_polarity_last_call_decides :
  forall NORMAL s ch pol1 pol2,
    initialized s -> valid_regs s -> channel ch ->
    regs_after (sunxi_pwm_set_polarity NORMAL ch pol1)
               (sunxi_pwm_set_polarity NORMAL ch pol2) s
      = regs_of (sunxi_pwm_set_polarity NORMAL ch pol2) s /\
    regs_of (sunxi_pwm_set_polarity NORMAL ch pol2) s <> None.
Proof.
  intros NORMAL s ch pol1 pol2 Hi (Hc & _) Hch.
  assert (Hs : 0 <= 15 * ch) by (destruct Hch; lia).
  pose proof (sunxi_pwm_set_polarity_update NORMAL ch pol1 Hch) as H1.
  pose proof (sunxi_pwm_set_polarity_update NORMAL ch pol2 Hch) as H2.
  rewrite (regs_after_updates _ _ _ _ s H1 H2 Hi Hc), (regs_of_update _ _ s H2 Hi Hc).
  unfold ctrl_polarized.
  split; [|discriminate].
  apply same_ctrl.
  destruct (pol1 =? NORMAL), (pol2 =? NORMAL); bit_by_bit.
Qed.

Lemma X8_set_polarity_last_call_decides_witness :
  regs_after (sunxi_pwm_set_polarity 0 1 0) (sunxi_pwm_set_polarity 0 1 1)
             state_ch0_running
    = regs_of (sunxi_pwm_set_polarity 0 1 1) state_ch0_running /\
  regs_of (sunxi_pwm_set_polarity 0 1 1) state_ch0_running <> None.
Proof.
  apply (X8_set_polarity_last_call_decides 0 state_ch0_running 1 0 1);
    concrete_state.
Defined.

(** X9. Calls that concern different bits commute on the registers:
    [sunxi_pwm_enable] and [sunxi_pwm_disable] on two different channels
    can be made in either order, and [sunxi_pwm_set_polarity] on any channel
    can be made before or after [sunxi_pwm_enable] or [sunxi_pwm_disable]
    on any channel, with the same registers at the end. *)
Theorem X9_calls_on_different_bits_commute :
  forall NORMAL s ch ch' pol,
    initialized s -> valid_regs s -> channel ch -> channel ch' ->
    (ch <> ch' ->
     regs_after (sunxi_pwm_enable ch) (sunxi_pwm_enable ch') s
       = regs_after (sunxi_pwm_enable ch') (sunxi_pwm_enable ch) s /\
     regs_after (sunxi_pwm_enable ch) (sunxi_pwm_disable ch') s
       = regs_after (sunxi_pwm_disable ch') (sunxi_pwm_enable ch) s /\
     regs_after (sunxi_pwm_disable ch) (sunxi_pwm_disable ch') s
       = regs_after (sunxi_pwm_disable ch') (sunxi_pwm_disable ch) s) /\
    regs_after (sunxi_pwm_set_polarity NORMAL ch pol) (sunxi_pwm_enable ch') s
      = regs_after (sunxi_pwm_enable ch') (sunxi_pwm_set_polarity NORMAL ch pol) s /\
    regs_after (sunxi_pwm_set_polarity NORMAL ch pol) (sunxi_pwm_disable ch') s
      = regs_after (sunxi_pwm_disable ch') (sunxi_pwm_set_polarity NORMAL ch pol) s /\
    regs_after (sunxi_pwm_set_polarity NORMAL ch pol) (sunxi_pwm_enable ch') s <> None /\
    regs_after (sunxi_pwm_enable ch) (sunxi_pwm_disable ch') s <> None.
Proof.
  intros NORMAL s ch ch' pol Hi (Hc & _) Hch Hch'.
  assert (Hs : 0 <= 15 * ch) by (destruct Hch; lia).
  assert (Hs' : 0 <= 15 * ch') by (destruct Hch'; lia).
  pose proof (sunxi_pwm_enable_update ch Hch) as Hen.
  pose proof (sunxi_pwm_disable_update ch Hch) as Hdis.
  pose proof (sunxi_pwm_enable_update ch' Hch') as Hen'.
  pose proof (sunxi_pwm_disable_update ch' Hch') as Hdis'.
  pose proof (sunxi_pwm_set_polarity_update NORMAL ch pol Hch) as Hpol.
  rewrite !(regs_after_updates _ _ _ _ s) by eassumption.
  unfold ctrl_enabled, ctrl_disabled, ctrl_polarized.
  split; [intros Hne|]; repeat split; try discriminate; apply same_ctrl;
    try destruct (pol =? NORMAL); bit_by_bit.
Qed.

Lemma X9_calls_on_different_bits_commute_witness :
  (0 <> 1 ->
   regs_after (sunxi_pwm_enable 0) (sunxi_pwm_enable 1) state_ch0_running
     = regs_after (sunxi_pwm_enable 1) (sunxi_pwm_enable 0) state_ch0_running /\
   regs_after (sunxi_pwm_enable 0) (sunxi_pwm_disable 1) state_ch0_running
     = regs_after (sunxi_pwm_disable 1) (sunxi_pwm_enable 0) state_ch0_running /\
   regs_after (sunxi_pwm_disable 0) (sunxi_pwm_disable 1) state_ch0_running
     = regs_after (sunxi_pwm_disable 1) (sunxi_pwm_disable 0) state_ch0_running) /\
  regs_after (sunxi_pwm_set_polarity 0 0 0) (sunxi_pwm_enable 1) state_ch0_running
    = regs_after (sunxi_pwm_enable 1) (sunxi_pwm_set_polarity 0 0 0) state_ch0_running /\
  regs_after (sunxi_pwm_set_polarity 0 0 0) (sunxi_pwm_disable 1) state_ch0_running
    = regs_after (sunxi_pwm_disable 1) (sunxi_pwm_set_polarity 0 0 0) state_ch0_running /\
  regs_after (sunxi_pwm_set_polarity 0 0 0) (sunxi_pwm_enable 1) state_ch0_running <> None /\
  regs_after (sunxi_pwm_enable 0) (sunxi_pwm_disable 1) state_ch0_running <> None.
Proof.
  apply (X9_calls_on_different_bits_commute 0 state_ch0_running 0 1 0);
    concrete_state.
Defined.

(** ** Configuring and switching in either order *)

(** Inside the prescaler field the new control word shows the selected
    index, whatever the old word. *)
Lemma config_ctrl_field_bit ch p c j :
  channel ch -> 15 * ch <= j < 15 * ch + 4 ->
  Z.testbit (config_ctrl ch p c) j = Z.testbit p (j - 15 * ch).
Proof.
  intros Hch Hj.
  rewrite config_ctrl_testbit by (assumption || (destruct Hch; lia)).
  destruct (Z.eqb_spec j (6 + 15 * ch)); [lia|].
  destruct (Z.leb_spec (15 * ch) j); [|lia].
  destruct (Z.ltb_spec j (15 * ch + 4)); [reflexivity | lia].
Qed.

(** An update of the control word that leaves the prescaler field of [ch]
    alone, and acts on each other bit by itself, commutes with the rewrite
    of that field. *)
Lemma config_ctrl_commutes (f : Z -> Z) ch p c :
  channel ch -> 0 <= p < 16 ->
  (forall x j, 15 * ch <= j < 15 * ch + 4 -> Z.testbit (f x) j = Z.testbit x j) ->
  (forall x y j, 0 <= j -> ~ (15 * ch <= j < 15 * ch + 4) ->
                 Z.testbit x j = Z.testbit y j ->
                 Z.testbit (f x) j = Z.testbit (f y) j) ->
  config_ctrl ch p (f c) = f (config_ctrl ch p c).
Proof.
  intros Hch Hp Hin Hout.
  apply Z.bits_inj'; intros j Hj.
  destruct (Z.le_gt_cases (15 * ch) j) as [Hlo|Hlo];
    [destruct (Z.lt_ge_cases j (15 * ch + 4)) as [Hhi|Hhi]|].
  - rewrite Hin, !config_ctrl_field_bit by (assumption || lia); reflexivity.
  - rewrite config_ctrl_frame by (assumption || lia).
    apply Hout; [assumption | lia |].
    symmetry; apply config_ctrl_frame; assumption || lia.
  - rewrite config_ctrl_frame by (assumption || lia).
    apply Hout; [assumption | lia |].
    symmetry; apply config_ctrl_frame; assumption || lia.
Qed.

Ltac single_bits :=
  repeat first [rewrite Z.lor_spec | rewrite Z.ldiff_spec];
  rewrite ?Z.pow2_bits_eqb by lia;
  repeat match goal with
         | |- context [?a =? ?b] => destruct (Z.eqb_spec a b)
         end;
  try (exfalso; lia);
  repeat match goal with
         | H : Z.testbit _ _ = Z.testbit _ _ |- _ => rewrite H; clear H
         end;
  repeat match goal with
         | |- context [Z.testbit ?c ?j] => destruct (Z.testbit c j)
         end;
  reflexivity.

Lemma config_ctrl_enabled ch ch' p c :
  channel ch -> channel ch' -> 0 <= p < 16 ->
  config_ctrl ch p (ctrl_enabled ch' c) = ctrl_enabled ch' (config_ctrl ch p c).
Proof.
  intros Hch Hch' Hp.
  apply (config_ctrl_commutes (ctrl_enabled ch')); try assumption;
    unfold ctrl_enabled.
  - intros x j Hj.
    destruct Hch as [-> | ->], Hch' as [-> | ->]; single_bits.
  - intros x y j Hj _ Hxy.
    destruct Hch' as [-> | ->]; single_bits.
Qed.

Lemma config_ctrl_disabled ch ch' p c :
  channel ch -> channel ch' -> 0 <= p < 16 ->
  config_ctrl ch p (ctrl_disabled ch' c) = ctrl_disabled ch' (config_ctrl ch p c).
Proof.
  intros Hch Hch' Hp.
  apply (config_ctrl_commutes (ctrl_disabled ch')); try assumption;
    unfold ctrl_disabled.
  - intros x j Hj.
    destruct Hch as [-> | ->], Hch' as [-> | ->]; single_bits.
  - intros x y j Hj _ Hxy.
    destruct Hch' as [-> | ->]; single_bits.
Qed.

Lemma config_ctrl_polarized NORMAL ch ch' pol p c :
  channel ch -> channel ch' -> 0 <= p < 16 ->
  config_ctrl ch p (ctrl_polarized NORMAL ch' pol c)
  = ctrl_polarized NORMAL ch' pol (config_ctrl ch p c).
Proof.
  intros Hch Hch' Hp.
  apply (config_ctrl_commutes (ctrl_polarized NORMAL ch' pol)); try assumption;
    unfold ctrl_polarized; destruct (pol =? NORMAL).
  - intros x j Hj.
    destruct Hch as [-> | ->], Hch' as [-> | ->]; single_bits.
  - intros x j Hj.
    destruct Hch as [-> | ->], Hch' as [-> | ->]; single_bits.
  - intros x y j Hj _ Hxy.
    destruct Hch' as [-> | ->]; single_bits.
  - intros x y j Hj _ Hxy.
    destruct Hch' as [-> | ->]; single_bits.
Qed.

(** [sunxi_pwm_set_config] before or after a call that only rewrites other
    bits of the control register. *)
Lemma set_config_commutes_with_update m f s ch period_ns duty_ns :
  ctrl_update m f ->
  (forall p c, 0 <= p < 16 -> config_ctrl ch p (f c) = f (config_ctrl ch p c)) ->
  initialized s -> valid_regs s -> channel ch ->
  regs_after (sunxi_pwm_set_config ch period_ns duty_ns) m s
    = regs_after m (sunxi_pwm_set_config ch period_ns duty_ns) s /\
  regs_after m (sunxi_pwm_set_config ch period_ns duty_ns) s <> None.
Proof.
  intros Hm Hcomm Hi (Hc & _) Hch.
  destruct (Hm s Hi Hc) as (Hfc & log & Hrun).
  unfold regs_after at 2 3; rewrite Hrun.
  match goal with
  | |- context [sunxi_pwm_set_config _ _ _ ?s2] => set (s2' := s2)
  end.
  assert (Hi2 : initialized s2') by exact Hi.
  assert (Hc2 : word32 (ctrl (reg s2'))) by exact Hfc.
  unfold regs_after.
  destruct (first_usable_or_none period_ns) as [[i Hfirst] | Hnone].
  - assert (Hp : 0 <= i < 16) by apply Hfirst.
    rewrite (sunxi_pwm_set_config_effect s ch period_ns duty_ns Hi Hch Hc i Hfirst).
    rewrite (sunxi_pwm_set_config_effect s2' ch period_ns duty_ns Hi2 Hch Hc2 i Hfirst).
    cbv zeta.
    match goal with
    | |- context [m ?s1] =>
      destruct (Hm s1 Hi ltac:(step_state; apply config_ctrl_word32; assumption))
        as (_ & log1 & Hrun1); rewrite Hrun1
    end.
    subst s2'; step_state.
    rewrite Hcomm by assumption.
    split; [reflexivity | discriminate].
  - rewrite (sunxi_pwm_set_config_none s ch period_ns duty_ns Hi Hnone).
    rewrite (sunxi_pwm_set_config_none s2' ch period_ns duty_ns Hi2 Hnone).
    rewrite Hrun.
    split; [reflexivity | discriminate].
Qed.

(** X10. Configuring and switching can be done in either order: on an
    initialized state, [sunxi_pwm_set_config] on one channel followed by
    [sunxi_pwm_enable], [sunxi_pwm_disable] or [sunxi_pwm_set_polarity] on
    any channel leaves the same control and period registers as the two
    calls in the opposite order, whether or not the period is accepted. *)
Theorem X10_set_config_commutes_with_switching :
  forall NORMAL s ch ch' period_ns duty_ns pol,
    initialized s -> valid_regs s -> channel ch -> channel ch' ->
    regs_after (sunxi_pwm_set_config ch period_ns duty_ns) (sunxi_pwm_enable ch') s
      = regs_after (sunxi_pwm_enable ch') (sunxi_pwm_set_config ch period_ns duty_ns) s /\
    regs_after (sunxi_pwm_set_config ch period_ns duty_ns) (sunxi_pwm_disable ch') s
      = regs_after (sunxi_pwm_disable ch') (sunxi_pwm_set_config ch period_ns duty_ns) s /\
    regs_after (sunxi_pwm_set_config ch period_ns duty_ns)
               (sunxi_pwm_set_polarity NORMAL ch' pol) s
      = regs_after (sunxi_pwm_set_polarity NORMAL ch' pol)
                   (sunxi_pwm_set_config ch period_ns duty_ns) s /\
    regs_after (sunxi_pwm_enable ch') (sunxi_pwm_set_config ch period_ns duty_ns) s
      <> None.
Proof.
  intros NORMAL s ch ch' period_ns duty_ns pol Hi Hv Hch Hch'.
  destruct (set_config_commutes_with_update _ _ s ch period_ns duty_ns
              (sunxi_pwm_enable_update ch' Hch')
              (fun p c Hp => config_ctrl_enabled ch ch' p c Hch Hch' Hp)
              Hi Hv Hch) as (Hen & Hdef).
  destruct (set_config_commutes_with_update _ _ s ch period_ns duty_ns
              (sunxi_pwm_disable_update ch' Hch')
              (fun p c Hp => config_ctrl_disabled ch ch' p c Hch Hch' Hp)
              Hi Hv Hch) as (Hdis & _).
  destruct (set_config_commutes_with_update _ _ s ch period_ns duty_ns
              (sunxi_pwm_set_polarity_update NORMAL ch' pol Hch')
              (fun p c Hp => config_ctrl_polarized NORMAL ch ch' pol p c Hch Hch' Hp)
              Hi Hv Hch) as (Hpol & _).
  split; [exact Hen|]. split; [exact Hdis|]. split; [exact Hpol | exact Hdef].
Qed.

Lemma X10_set_config_commutes_with_switching_witness :
  regs_after (sunxi_pwm_set_config 0 20000000 1500000) (sunxi_pwm_enable 0)
             state_at_reset
    = regs_after (sunxi_pwm_enable 0) (sunxi_pwm_set_config 0 20000000 1500000)
                 state_at_reset /\
  regs_after (sunxi_pwm_set_config 0 20000000 1500000) (sunxi_pwm_disable 0)
             state_at_reset
    = regs_after (sunxi_pwm_disable 0) (sunxi_pwm_set_config 0 20000000 1500000)
                 state_at_reset /\
  regs_after (sunxi_pwm_set_config 0 20000000 1500000) (sunxi_pwm_set_polarity 0 0 1)
             state_at_reset
    = regs_after (sunxi_pwm_set_polarity 0 0 1) (sunxi_pwm_set_config 0 20000000 1500000)
                 state_at_reset /\
  regs_after (sunxi_pwm_enable 0) (sunxi_pwm_set_config 0 20000000 1500000)
             state_at_reset <> None.
Proof.
  apply (X10_set_config_commutes_with_switching 0 state_at_reset 0 0
           20000000 1500000 1); concrete_state.
Defined.

(** ** Initialization *)

Lemma SUNXI_PWM_IO_BASE_word32 : word32 SUNXI_PWM_IO_BASE.
Proof. unfold word32, SUNXI_PWM_IO_BASE; lia. Qed.

(** For a page size [2^k], [page_mask] has exactly the bits from [k] up to
    31. *)
Lemma page_mask_bits k i :
  0 <= k < 32 -> 0 <= i ->
  Z.testbit (page_mask (2 ^ k)) i = (i <? 32) && (k <=? i).
Proof.
  intros Hk Hi; unfold page_mask.
  assert (Hps : word32 (2 ^ k - 1)).
  { pose proof (pow2_word32 k Hk) as Hw; unfold word32 in *; lia. }
  rewrite (to_uint_small _ Hps), testbit_to_uint, Z.lnot_spec by assumption.
  replace (2 ^ k - 1) with (Z.ones k) by (rewrite Z.ones_equiv; lia).
  destruct (Z.ltb_spec i 32); cbn [andb]; [|reflexivity].
  destruct (Z.leb_spec k i).
  - rewrite Z.ones_spec_high by lia; reflexivity.
  - rewrite Z.ones_spec_low by lia; reflexivity.
Qed.

(** The base address is split at the page boundary. *)
Lemma addr_split k :
  0 <= k < 32 ->
  addr_start (2 ^ k) = 2 ^ k * (SUNXI_PWM_IO_BASE / 2 ^ k) /\
  addr_offset (2 ^ k) = SUNXI_PWM_IO_BASE mod 2 ^ k.
Proof.
  intros Hk; split.
  - rewrite Z.mul_comm, <- Z.shiftr_div_pow2, <- Z.shiftl_mul_pow2 by lia.
    unfold addr_start.
    apply Z.bits_inj'; intros i Hi.
    rewrite Z.land_spec, page_mask_bits by assumption.
    destruct (Z.leb_spec k i).
    + rewrite Z.shiftl_spec, Z.shiftr_spec by lia.
      replace (i - k + k) with i by lia.
      destruct (Z.ltb_spec i 32); cbn [andb]; [apply andb_true_r|].
      rewrite (word32_high_bits _ i SUNXI_PWM_IO_BASE_word32) by assumption.
      reflexivity.
    + rewrite Z.shiftl_spec_low by lia.
      rewrite !andb_false_r; reflexivity.
  - unfold addr_offset.
    rewrite <- Z.land_ones by lia.
    apply Z.bits_inj'; intros i Hi.
    rewrite !Z.land_spec, testbit_to_uint, Z.lnot_spec, page_mask_bits by assumption.
    destruct (Z.ltb_spec i 32), (Z.leb_spec k i); cbn [andb negb].
    + rewrite Z.ones_spec_high by lia; reflexivity.
    + rewrite Z.ones_spec_low by lia; reflexivity.
    + rewrite Z.ones_spec_high by lia; reflexivity.
    + lia.
Qed.

(** The two outcomes of [sunxi_pwm_init], for use in compositions. *)
Lemma sunxi_pwm_init_success os s k pc :
  0 <= open_fd os ->
  4 <= k <= 30 -> sysconf_pagesize os = 2 ^ k ->
  mmap_pc os = Some pc -> 0 < pc -> pc + 2 * 2 ^ k <= 2 ^ 32 ->
  exists calls s',
    sunxi_pwm_init os s = Some ((0, calls), s') /\
    initialized s' /\ reg s' = reg s.
Proof.
  intros Hfd Hk Hps Hpc Hpos Hfit.
  assert (Hk32 : 0 <= k < 32) by lia.
  destruct (addr_split k Hk32) as (_ & Hoff).
  pose proof (Z.mod_pos_bound SUNXI_PWM_IO_BASE (2 ^ k) ltac:(lia)) as Hmod.
  assert (Hw : word32 (2 ^ k)) by (apply pow2_word32; lia).
  unfold sunxi_pwm_init.
  destruct (Z.ltb_spec (open_fd os) 0); [lia|].
  rewrite Hpc, Hps, (to_uint_small _ Hw), Hoff.
  rewrite (to_uint_small pc) by (unfold word32; lia).
  rewrite (to_uint_small (pc + _)) by (unfold word32; lia).
  do 2 eexists; split; [reflexivity|].
  unfold initialized; step_state; split; [lia | reflexivity].
Qed.

Lemma sunxi_pwm_init_failure os s :
  open_fd os < 0 \/ mmap_pc os = None ->
  exists r calls, sunxi_pwm_init os s = Some ((r, calls), s).
Proof.
  intros Hfail; unfold sunxi_pwm_init.
  destruct (Z.ltb_spec (open_fd os) 0) as [Hneg | Hfd].
  - do 2 eexists; reflexivity.
  - destruct Hfail as [Hneg | Hmap]; [lia|].
    rewrite Hmap; do 2 eexists; reflexivity.
Qed.

(** X11. A successful [sunxi_pwm_init].  When [open] returns a descriptor,
    the page size is a power of two [2^k] with [4 <= k <= 30], and [mmap]
    returns an address [pc] at which two pages fit below [2^32], then,
    whatever the state before: the function returns 0 after exactly the
    calls open, sysconf, mmap (two pages, at the page-aligned start of
    [SUNXI_PWM_IO_BASE]) and close of that descriptor;
    [sunxi_pwm_base_address] becomes [pc] plus the offset of
    [SUNXI_PWM_IO_BASE] in its page, so the interface is initialized and the
    three registers (12 bytes) lie inside the mapping; no register is read
    or written. *)
Theorem X11_init_maps_register_block :
  forall os s k pc,
    0 <= open_fd os ->
    4 <= k <= 30 -> sysconf_pagesize os = 2 ^ k ->
    mmap_pc os = Some pc -> 0 < pc -> pc + 2 * 2 ^ k <= 2 ^ 32 ->
    exists s',
      sunxi_pwm_init os s =
        Some ((0, [sys_open; sys_sysconf;
                   sys_mmap (2 * 2 ^ k) (open_fd os)
                            (SUNXI_PWM_IO_BASE - SUNXI_PWM_IO_BASE mod 2 ^ k);
                   sys_close (open_fd os)]), s') /\
      sunxi_pwm_base_address s' = pc + SUNXI_PWM_IO_BASE mod 2 ^ k /\
      pc <= sunxi_pwm_base_address s' /\
      sunxi_pwm_base_address s' + 12 <= pc + 2 * 2 ^ k /\
      initialized s' /\
      reg s' = reg s /\ bus s' = bus s.
Proof.
  intros os s k pc Hfd Hk Hps Hpc Hpos Hfit.
  assert (Hk32 : 0 <= k < 32) by lia.
  destruct (addr_split k Hk32) as (Hstart & Hoff).
  pose proof (Z.mod_pos_bound SUNXI_PWM_IO_BASE (2 ^ k) ltac:(lia)) as Hmod.
  pose proof (Z.div_mod SUNXI_PWM_IO_BASE (2 ^ k) ltac:(lia)) as Hdm.
  assert (H16 : 2 ^ 4 <= 2 ^ k) by (apply Z.pow_le_mono_r; lia).
  assert (Hw : word32 (2 ^ k)) by (apply pow2_word32; lia).
  unfold sunxi_pwm_init.
  destruct (Z.ltb_spec (open_fd os) 0); [lia|].
  rewrite Hpc, Hps, (to_uint_small _ Hw), Hstart, Hoff.
  rewrite (to_uint_small (2 ^ k * 2)) by (unfold word32 in *; lia).
  rewrite (to_uint_small pc) by (unfold word32; lia).
  rewrite (to_uint_small (pc + _)) by (unfold word32; lia).
  replace (2 ^ k * 2) with (2 * 2 ^ k) by lia.
  replace (2 ^ k * (SUNXI_PWM_IO_BASE / 2 ^ k))
    with (SUNXI_PWM_IO_BASE - SUNXI_PWM_IO_BASE mod 2 ^ k) by lia.
  eexists; split; [reflexivity|].
  unfold initialized; step_state.
  change (2 ^ 4) with 16 in H16.
  repeat split; lia.
Qed.

Lemma X11_init_maps_register_block_witness :
  exists s',
    sunxi_pwm_init os_mapped state_unmapped =
      Some ((0, [sys_open; sys_sysconf;
                 sys_mmap (2 * 2 ^ 12) (open_fd os_mapped)
                          (SUNXI_PWM_IO_BASE - SUNXI_PWM_IO_BASE mod 2 ^ 12);
                 sys_close (open_fd os_mapped)]), s') /\
    sunxi_pwm_base_address s' = 0xb6f00000 + SUNXI_PWM_IO_BASE mod 2 ^ 12 /\
    0xb6f00000 <= sunxi_pwm_base_address s' /\
    sunxi_pwm_base_address s' + 12 <= 0xb6f00000 + 2 * 2 ^ 12 /\
    initialized s' /\
    reg s' = reg state_unmapped /\ bus s' = bus state_unmapped.
Proof.
  apply (X11_init_maps_register_block os_mapped state_unmapped 12 0xb6f00000);
    cbn [os_mapped open_fd sysconf_pagesize mmap_pc]; try lia; reflexivity.
Defined.

(** X12. A failing [sunxi_pwm_init].  When [open] fails, or [mmap] returns
    [MAP_FAILED], the function returns minus the [errno] of the failing
    call and leaves the whole state as it was ([sunxi_pwm_base_address]
    included, and no register access).  After a failed [open] no other call
    is made; after a failed [mmap] the calls were open, sysconf and mmap
    only: the descriptor [open] returned is not closed on that path. *)
Theorem X12_init_failure :
  forall os s,
    open_fd os < 0 \/ mmap_pc os = None ->
    exists r calls,
      sunxi_pwm_init os s = Some ((r, calls), s) /\
      (open_fd os < 0 -> r = - open_errno os /\ calls = [sys_open]) /\
      (0 <= open_fd os ->
       r = - mmap_errno os /\
       exists length offset,
         calls = [sys_open; sys_sysconf; sys_mmap length (open_fd os) offset]) /\
      (forall fd, ~ In (sys_close fd) calls).
Proof.
  intros os s Hfail.
  unfold sunxi_pwm_init.
  destruct (Z.ltb_spec (open_fd os) 0) as [Hneg | Hfd].
  - do 2 eexists; split; [reflexivity|].
    split; [intros _; split; reflexivity|].
    split; [lia|].
    intros fd [Hin | []]; discriminate.
  - destruct Hfail as [Hneg | Hmap]; [lia|].
    rewrite Hmap.
    do 2 eexists; split; [reflexivity|].
    split; [lia|].
    split; [intros _; split; [reflexivity | do 2 eexists; reflexivity]|].
    intros fd [Hin | [Hin | [Hin | []]]]; discriminate.
Qed.

Lemma X12_init_failure_witness :
  exists r calls,
    sunxi_pwm_init os_mmap_denied state_unmapped = Some ((r, calls), state_unmapped) /\
    (open_fd os_mmap_denied < 0 -> r = - open_errno os_mmap_denied /\ calls = [sys_open]) /\
    (0 <= open_fd os_mmap_denied ->
     r = - mmap_errno os_mmap_denied /\
     exists length offset,
       calls = [sys_open; sys_sysconf; sys_mmap length (open_fd os_mmap_denied) offset]) /\
    (forall fd, ~ In (sys_close fd) calls).
Proof.
  apply (X12_init_failure os_mmap_denied state_unmapped).
  right; reflexivity.
Defined.

(** X13. [sunxi_pwm_init] is what makes the other operations available.
    On a state where [sunxi_pwm_base_address] is 0, [sunxi_pwm_enable]
    returns [-EPERM]; a successful [sunxi_pwm_init] (conditions as in X11)
    returns 0, and on the state it leaves the same call to
    [sunxi_pwm_enable] returns 0 and sets the channel's enable and
    clock-gating bits in the control register found, leaving the period
    registers as they were; a failed [sunxi_pwm_init] leaves the state as
    it was, on which [sunxi_pwm_enable] still returns [-EPERM]. *)
Theorem X13_init_then_enable :
  forall os os' s k pc ch,
    sunxi_pwm_base_address s = 0 -> valid_regs s -> channel ch ->
    0 <= open_fd os ->
    4 <= k <= 30 -> sysconf_pagesize os = 2 ^ k ->
    mmap_pc os = Some pc -> 0 < pc -> pc + 2 * 2 ^ k <= 2 ^ 32 ->
    open_fd os' < 0 \/ mmap_pc os' = None ->
    sunxi_pwm_enable ch s = Some (- EPERM, s) /\
    (exists calls s1 s2,
       sunxi_pwm_init os s = Some ((0, calls), s1) /\
       sunxi_pwm_enable ch s1 = Some (0, s2) /\
       reg s2 = mk_reg (ctrl_enabled ch (ctrl (reg s)))
                       (ch_period_0 (reg s)) (ch_period_1 (reg s))) /\
    regs_after (sunxi_pwm_init os) (sunxi_pwm_enable ch) s
      = Some (mk_reg (ctrl_enabled ch (ctrl (reg s)))
                     (ch_period_0 (reg s)) (ch_period_1 (reg s))) /\
    (exists r calls,
       sunxi_pwm_init os' s = Some ((r, calls), s) /\
       sunxi_pwm_enable ch s = Some (- EPERM, s)).
Proof.
  intros os os' s k pc ch Hbase (Hc & _) Hch Hfd Hk Hps Hpc Hpos Hfit Hfail.
  assert (Heperm : sunxi_pwm_enable ch s = Some (- EPERM, s))
    by (unfold sunxi_pwm_enable; rewrite Hbase; reflexivity).
  destruct (sunxi_pwm_init_success os s k pc Hfd Hk Hps Hpc Hpos Hfit)
    as (calls & s1 & Hrun & Hi1 & Hreg).
  assert (Hc1 : word32 (ctrl (reg s1))) by (rewrite Hreg; exact Hc).
  pose proof (sunxi_pwm_enable_run s1 ch Hi1 Hch Hc1) as Hen; cbv zeta in Hen.
  split; [exact Heperm|].
  split; [|split].
  - exists calls, s1; eexists.
    split; [exact Hrun|]. split; [exact Hen|].
    step_state; rewrite Hreg; reflexivity.
  - unfold regs_after; rewrite Hrun, Hen.
    step_state; rewrite Hreg; reflexivity.
  - destruct (sunxi_pwm_init_failure os' s Hfail) as (r & calls' & Hrun').
    exists r, calls'; split; [exact Hrun' | exact Heperm].
Qed.

Lemma X13_init_then_enable_witness :
  sunxi_pwm_enable 1 state_unmapped = Some (- EPERM, state_unmapped) /\
  (exists calls s1 s2,
     sunxi_pwm_init os_mapped state_unmapped = Some ((0, calls), s1) /\
     sunxi_pwm_enable 1 s1 = Some (0, s2) /\
     reg s2 = mk_reg (ctrl_enabled 1 (ctrl (reg state_unmapped)))
                     (ch_period_0 (reg state_unmapped))
                     (ch_period_1 (reg state_unmapped))) /\
  regs_after (sunxi_pwm_init os_mapped) (sunxi_pwm_enable 1) state_unmapped
    = Some (mk_reg (ctrl_enabled 1 (ctrl (reg state_unmapped)))
                   (ch_period_0 (reg state_unmapped))
                   (ch_period_1 (reg state_unmapped))) /\
  (exists r calls,
     sunxi_pwm_init os_open_denied state_unmapped = Some ((r, calls), state_unmapped) /\
     sunxi_pwm_enable 1 state_unmapped = Some (- EPERM, state_unmapped)).
Proof.
  apply (X13_init_then_enable os_mapped os_open_denied state_unmapped 12 0xb6f00000 1);
    unfold valid_regs, word32, channel;
    cbn [os_mapped os_open_denied open_fd sysconf_pagesize mmap_pc state_unmapped
         sunxi_pwm_base_address reg ctrl ch_period_0 ch_period_1];
    try lia; reflexivity.
Defined.

(** ** The selected prescaler gives the finest resolution *)

(** The non-zero divisors of the table grow with the index. *)
Lemma prescaler_table_increasing i j di dj :
  0 <= i <= j -> j < 16 ->
  table_at i = Some di -> table_at j = Some dj ->
  di <> 0 -> dj <> 0 -> di <= dj.
Proof.
  intros Hij Hj Hi' Hj' Hdi Hdj.
  assert (Hi : 0 <= i < 16) by lia.
  assert (Hj0 : 0 <= j < 16) by lia.
  each_index i Hi; each_index j Hj0; try lia;
    cbv in Hi', Hj';
    injection Hi' as <-; injection Hj' as <-; lia.
Qed.

(** X14. Among the prescalers that fit, [sunxi_pwm_set_config] selects the
    one with the finest resolution.  For a period below the wrap of the
    64-bit product, the index a successful call writes into the prescaler
    field is itself usable and is the smallest usable index of the table,
    and every usable table entry [j] lies at or after it and yields a tick
    count no larger than the one selected. *)
Theorem X14_selected_prescaler_is_finest :
  forall s ch period_ns duty_ns s',
    initialized s -> valid_regs s -> channel ch ->
    0 <= period_ns <= 92233720368547 ->
    sunxi_pwm_set_config ch period_ns duty_ns s = Some (0, s') ->
    first_usable period_ns (prescaler_field ch (ctrl (reg s'))) /\
    usable period_ns (prescaler_field ch (ctrl (reg s'))) = true /\
    1 <= tick_count period_ns (prescaler_field ch (ctrl (reg s'))) <= 65536 /\
    forall j, 0 <= j < 16 -> usable period_ns j = true ->
      prescaler_field ch (ctrl (reg s')) <= j /\
      tick_count period_ns j
        <= tick_count period_ns (prescaler_field ch (ctrl (reg s'))).
Proof.
  intros s ch period_ns duty_ns s' Hi (Hc & _) Hch Hp Hrun.
  destruct (sunxi_pwm_set_config_success s ch period_ns duty_ns Hi Hch Hc s' Hrun)
    as (i & Hfirst & Hctrl & _).
  assert (Hfield : prescaler_field ch (ctrl (reg s')) = i)
    by (rewrite Hctrl; apply config_ctrl_prescaler; [exact Hch | apply Hfirst]).
  rewrite Hfield.
  split; [exact Hfirst|].
  split; [apply Hfirst|].
  split; [apply (first_usable_ticks period_ns i Hfirst)|].
  intros j Hj Hu.
  destruct Hfirst as (Hi16 & Hui & Hmin).
  assert (Hij : i <= j).
  { destruct (Z.le_gt_cases i j) as [|Hlt]; [assumption|].
    rewrite (Hmin j) in Hu by lia; discriminate. }
  split; [exact Hij|].
  destruct (usable_entry period_ns i Hui) as (di & Hati & Hdi).
  destruct (usable_entry period_ns j Hu) as (dj & Hatj & Hdj).
  pose proof (prescaler_table_increasing i j di dj ltac:(lia) ltac:(lia)
                Hati Hatj ltac:(lia) ltac:(lia)) as Hinc.
  pose proof (clock_rate_bounds di Hdi) as Hxi.
  pose proof (clock_rate_bounds dj Hdj) as Hxj.
  unfold tick_count; rewrite Hati, Hatj.
  destruct (Z.eqb_spec di 0); [lia|].
  destruct (Z.eqb_spec dj 0); [lia|].
  unfold ticks; cbv zeta.
  rewrite !to_u64_small by (unfold word64; nia).
  apply Z.div_le_mono; [lia|].
  apply Z.mul_le_mono_nonneg_r; [lia|].
  apply Z.div_le_compat_l; lia.
Qed.

Lemma X14_selected_prescaler_is_finest_witness :
  first_usable 20000000 (prescaler_field 0 (ctrl (reg state_ch0_reconfigured))) /\
  usable 20000000 (prescaler_field 0 (ctrl (reg state_ch0_reconfigured))) = true /\
  1 <= tick_count 20000000 (prescaler_field 0 (ctrl (reg state_ch0_reconfigured)))
    <= 65536 /\
  forall j, 0 <= j < 16 -> usable 20000000 j = true ->
    prescaler_field 0 (ctrl (reg state_ch0_reconfigured)) <= j /\
    tick_count 20000000 j
      <= tick_count 20000000 (prescaler_field 0 (ctrl (reg state_ch0_reconfigured))).
Proof.
  apply (X14_selected_prescaler_is_finest state_ch0_running 0 20000000 1500000);
    try concrete_state; vm_compute; reflexivity.
Defined.

(** ** Channels outside {0,1} *)

Lemma shl_int_overflow a ch :
  16 <= a -> 2 <= ch <= 286331153 -> shl_int a (ch_shift ch) = None.
Proof.
  intros Ha Hch.
  unfold shl_int, ch_shift.
  rewrite (to_uint_small (15 * ch)) by (unfold word32; lia).
  destruct (Z.ltb_spec (15 * ch) 32) as [Hlt|]; [|rewrite andb_false_r; reflexivity].
  assert (ch = 2) by lia; subst ch.
  rewrite Z.shiftl_mul_pow2 by lia.
  destruct (Z.leb_spec (a * 2 ^ (15 * 2)) INT_MAX) as [Hle|];
    [|rewrite andb_false_r; reflexivity].
  unfold INT_MAX in Hle; change (2 ^ (15 * 2)) with 1073741824 in Hle; lia.
Qed.

(** X15. The channel argument is not validated.  On an initialized state,
    for every channel from 2 up to 286331153 (where [15 * ch] does not wrap),
    [sunxi_pwm_enable], [sunxi_pwm_disable] and [sunxi_pwm_set_polarity]
    run into undefined behaviour (the signed shift in their mask overflows),
    and so does [sunxi_pwm_set_config] whenever the period is accepted;
    with a rejected period it returns [-EINVAL] as for a valid channel,
    because the channel is not used before that test. *)
Theorem X15_channel_not_validated :
  forall NORMAL s ch pol period_ns duty_ns,
    initialized s ->
    2 <= ch <= 286331153 ->
    sunxi_pwm_enable ch s = None /\
    sunxi_pwm_disable ch s = None /\
    sunxi_pwm_set_polarity NORMAL ch pol s = None /\
    ((exists i, first_usable period_ns i) ->
     sunxi_pwm_set_config ch period_ns duty_ns s = None) /\
    (none_usable period_ns ->
     sunxi_pwm_set_config ch period_ns duty_ns s = Some (- EINVAL, s)).
Proof.
  intros NORMAL s ch pol period_ns duty_ns Hi Hch.
  assert (Hen : SUNXI_PWM_EN ch = None)
    by (apply shl_int_overflow; [cbn; lia | exact Hch]).
  assert (Hact : SUNXI_PWM_ACT_STATE ch = None)
    by (apply shl_int_overflow; [cbn; lia | exact Hch]).
  assert (Hgate : SUNXI_PWM_CLK_GATING ch = None)
    by (apply shl_int_overflow; [cbn; lia | exact Hch]).
  split; [|split; [|split; [|split]]].
  - unfold sunxi_pwm_enable; rewrite (initialized_test s Hi), Hen; reflexivity.
  - unfold sunxi_pwm_disable; rewrite (initialized_test s Hi), Hen; reflexivity.
  - unfold sunxi_pwm_set_polarity; rewrite (initialized_test s Hi), Hact.
    destruct (pol =? NORMAL); reflexivity.
  - intros (i & Hfirst).
    unfold sunxi_pwm_set_config; rewrite (initialized_test s Hi).
    destruct (prescaler_search period_ns)
      as (q & d & Hrun & [(Hfirst' & Hd) | (_ & _ & Hnone)]).
    2:{ destruct Hfirst as (Hq & Hu & _); rewrite (Hnone i Hq) in Hu; discriminate. }
    destruct Hfirst' as (Hq & Hu & _).
    destruct (usable_tick_count _ _ Hu) as (Hfit & Hper).
    subst d.
    unfold bind at 1; rewrite Hrun; cbn [defined ret fst snd].
    unfold bind at 1; cbn [defined ret]; rewrite Hfit; cbn [negb].
    unfold div_u64; rewrite (proj2 (Z.eqb_neq _ _) Hper), Hgate.
    reflexivity.
  - intros Hnone; apply sunxi_pwm_set_config_none; assumption.
Qed.

Lemma X15_channel_not_validated_witness :
  sunxi_pwm_enable 2 state_ch0_running = None /\
  sunxi_pwm_disable 2 state_ch0_running = None /\
  sunxi_pwm_set_polarity 0 2 1 state_ch0_running = None /\
  ((exists i, first_usable 20000000 i) ->
   sunxi_pwm_set_config 2 20000000 1500000 state_ch0_running = None) /\
  (none_usable 20000000 ->
   sunxi_pwm_set_config 2 20000000 1500000 state_ch0_running
   = Some (- EINVAL, state_ch0_running)).
Proof.
  apply (X15_channel_not_validated 0 state_ch0_running 2 1 20000000 1500000);
    concrete_state.
Defined.
